(** * algorithms_keeper.log: the colourised structured logger

    A shallow embedding of [src/algorithms_keeper/log.py] and the properties
    of its colour codec, field style registry, argument formatter, record
    formatter and access logger.

    Conventions of the embedding.
    - Python [str] is [string]; the texts the module handles are ASCII, and
      [upper] is [str.upper] on ASCII text.
    - Python [int] is [Z]; Python [float] is the binary64 [float] of the
      kernel, so [time * 1000] is the very product Python computes.
    - A call that may raise returns an [outcome]; code that reads or writes
      module globals, dictionaries or the record runs in the state monad
      [M], which keeps the state reached when an exception escapes.
    - Dictionaries and log records are objects: the state holds them and a
      [loc] refers to one, so that two references to one object stay
      aliases. *)

From Stdlib Require Import ZArith Floats DecimalString DecimalZ Ascii.
From stdpp Require Import gmap strings list fin_maps.

Set Warnings "-inexact-float".

(** ** Outcomes and the state monad *)

Inductive PyError :=
  | AttributeError | KeyError | TypeError | ValueError | OverflowError.

(** [OutOfModel] marks the Python behaviours the embedding leaves out (a
    conversion other than [%s] and [%d], an attribute of the class that is
    not a string); it is neither a value nor an exception of the model. *)
Inductive outcome (A : Type) :=
  | Ok (a : A)
  | Raise (e : PyError)
  | OutOfModel.
Arguments Ok {A} a.
Arguments Raise {A} e.
Arguments OutOfModel {A}.

Definition is_Ok {A} (o : outcome A) : Prop := ∃ a, o = Ok a.

Global Instance outcome_ret : MRet outcome := λ A a, Ok a.
Global Instance outcome_bind : MBind outcome := λ A B f o,
  match o with
  | Ok a => f a
  | Raise e => Raise e
  | OutOfModel => OutOfModel
  end.
Global Instance outcome_fmap : FMap outcome := λ A B f o,
  match o with
  | Ok a => Ok (f a)
  | Raise e => Raise e
  | OutOfModel => OutOfModel
  end.

Record M (S A : Type) := mkM { runM : S → S * outcome A }.
Arguments mkM {S A} runM.
Arguments runM {S A} m s.

Global Instance M_ret {S} : MRet (M S) := λ A a, mkM (λ s, (s, Ok a)).
Global Instance M_bind {S} : MBind (M S) := λ A B f m,
  mkM (λ s,
    match runM m s with
    | (s', Ok a) => runM (f a) s'
    | (s', Raise e) => (s', Raise e)
    | (s', OutOfModel) => (s', OutOfModel)
    end).

Definition get {S} : M S S := mkM (λ s, (s, Ok s)).
Definition modify {S} (f : S → S) : M S unit := mkM (λ s, (f s, Ok tt)).
Definition liftO {S A} (o : outcome A) : M S A := mkM (λ s, (s, o)).

(** ** Text *)

Definition newline : ascii := "010"%char.
Definition NL : string := String newline "".
Definition ESC : ascii := "027"%char.
Definition dquote : string := String "034"%char "".

Definition upper_ascii (c : ascii) : ascii :=
  let n := N_of_ascii c in
  if ((97 <=? n) && (n <=? 122))%N then ascii_of_N (n - 32) else c.

(** [str.upper] on ASCII text: the letters [a] to [z] go to [A] to [Z]
    and every other byte stays. The texts the module upper-cases are the
    names of colours, styles and levels and the scheme of the request,
    all ASCII; on a letter outside ASCII [str.upper] may do more than
    this function does. *)
Fixpoint upper (s : string) : string :=
  match s with
  | EmptyString => EmptyString
  | String c s' => String (upper_ascii c) (upper s')
  end.

(** [str(n)] and [f"{n}"] for an [int] *)
Definition str_int (n : Z) : string := NilEmpty.string_of_int (Z.to_int n).

(** [s[-1:]] *)
Fixpoint last_char (s : string) : string :=
  match s with
  | EmptyString => EmptyString
  | String c EmptyString => String c EmptyString
  | String _ s' => last_char s'
  end.

(** [s.replace("\n", new)] *)
Fixpoint replace_newline (new : string) (s : string) : string :=
  match s with
  | EmptyString => EmptyString
  | String c s' =>
      if decide (c = newline) then new +:+ replace_newline new s'
      else String c (replace_newline new s')
  end.

(** [round(x)] of a [float]: the nearest integer, ties to the even one;
    [ValueError] on a NaN and [OverflowError] on an infinity. *)
Definition round_half_even (m : Z) (e : Z) : Z :=
  if (0 <=? e)%Z then (m * 2 ^ e)%Z
  else
    let d := (2 ^ (- e))%Z in
    let q := (m / d)%Z in
    let r := (m mod d)%Z in
    if (2 * r <? d)%Z then q
    else if (d <? 2 * r)%Z then (q + 1)%Z
    else if Z.even q then q else (q + 1)%Z.

Definition py_round (x : float) : outcome Z :=
  match Prim2SF x with
  | S754_zero _ => Ok 0%Z
  | S754_finite s m e =>
      let z := round_half_even (Z.pos m) e in
      Ok (if s then (- z)%Z else z)
  | S754_infinity _ => Raise OverflowError
  | S754_nan => Raise ValueError
  end.

Definition is_finite (x : float) : bool :=
  match Prim2SF x with
  | S754_zero _ | S754_finite _ _ _ => true
  | _ => false
  end.

(** ** Values held by argument mappings *)

Inductive Value :=
  | VStr (s : string)
  | VInt (n : Z)
  | VBool (b : bool)
  | VNone.

(** [str(value)] *)
Definition str (v : Value) : string :=
  match v with
  | VStr s => s
  | VInt n => str_int n
  | VBool true => "True"
  | VBool false => "False"
  | VNone => "None"
  end.

Abbreviation Dict := (gmap string Value).
Abbreviation loc := nat (only parsing).

(** ** Module constants *)

Definition CSI : string := String ESC "[".

Record FieldStyle := { color : string; style : option string }.

Definition MSG_ARGS_FORMAT : gmap string FieldStyle :=
  list_to_map [
    ("event", {| color := "green"; style := None |});
    ("ratelimit", {| color := "white"; style := Some "bold" |});
    ("time_remaining", {| color := "white"; style := Some "bold" |});
    ("url", {| color := "blue"; style := Some "underline" |});
    ("file", {| color := "yellow"; style := None |});
    ("request", {| color := "yellow"; style := None |});
    ("time", {| color := "yellow"; style := None |});
    ("status", {| color := ""; style := Some "bold" |});
    ("method", {| color := "magenta"; style := Some "bold" |});
    ("path", {| color := "blue"; style := None |});
    ("data", {| color := "yellow"; style := None |});
    ("version", {| color := "yellow"; style := None |})
  ].

Definition STATUS_OK : list Z := [200; 201; 204]%Z.

Definition colorcode (code : Z) : string := CSI +:+ str_int code +:+ "m".

(** ** The colour codec *)

Module AnsiColor.
Definition BLACK := colorcode 30.
Definition RED := colorcode 31.
Definition GREEN := colorcode 32.
Definition YELLOW := colorcode 33.
Definition BLUE := colorcode 34.
Definition MAGENTA := colorcode 35.
Definition CYAN := colorcode 36.
Definition WHITE := colorcode 37.
Definition RESET := colorcode 39.

Definition BOLD := colorcode 1.
Definition DIM := colorcode 2.
Definition UNDERLINE := colorcode 4.
Definition NORMAL := colorcode 22.
Definition RESET_ALL := colorcode 0.

Definition DEBUG := DIM.
Definition INFO := DIM.
Definition WARNING := YELLOW.
Definition ERROR := RED.
Definition CRITICAL := MAGENTA +:+ BOLD.

(** The string attributes of the class, by name. *)
Definition attrs : gmap string string :=
  list_to_map [
    ("BLACK", BLACK); ("RED", RED); ("GREEN", GREEN); ("YELLOW", YELLOW);
    ("BLUE", BLUE); ("MAGENTA", MAGENTA); ("CYAN", CYAN); ("WHITE", WHITE);
    ("RESET", RESET); ("BOLD", BOLD); ("DIM", DIM);
    ("UNDERLINE", UNDERLINE); ("NORMAL", NORMAL); ("RESET_ALL", RESET_ALL);
    ("DEBUG", DEBUG); ("INFO", INFO); ("WARNING", WARNING);
    ("ERROR", ERROR); ("CRITICAL", CRITICAL)
  ].

(** [getattr(self, name.upper())]: an upper-cased name reaches one of the
    string constants or nothing, no other attribute of the object has a
    name free of lower-case letters. *)
Definition getattr_upper (name : string) : outcome string :=
  match attrs !! upper name with
  | Some code => Ok code
  | None => Raise AttributeError
  end.

(** The names of attributes the class has besides its string constants:
    the method, the method of [type], and the double-underscore names. *)
Definition other_attribute (name : string) : bool :=
  bool_decide (name = "inject") || bool_decide (name = "mro")
  || String.prefix "__" name.

(** [getattr(AnsiColor, name)], the name taken as it is. *)
Definition getattr (name : string) : outcome string :=
  match attrs !! name with
  | Some code => Ok code
  | None => if other_attribute name then OutOfModel else Raise AttributeError
  end.

Definition inject (msg color style reset : string) : outcome string :=
  c ← getattr_upper color;
  s ← getattr_upper style;
  r ← getattr_upper reset;
  Ok (RESET_ALL +:+ c +:+ s +:+ msg +:+ RESET_ALL +:+ r).
End AnsiColor.

(** ** Objects and the state of the program *)

(** The triple [(type, value, traceback)] of an exception being logged. *)
Record ExcInfo := {
  exc_type : string;
  exc_value : string;
  exc_traceback : list string;
}.

(** [record.args]: absent, a tuple, or a reference to a dictionary. *)
Inductive Args :=
  | ANone
  | ATuple (vs : list Value)
  | AMap (l : loc).

(** The attributes of a [logging.LogRecord] that the module reads or
    writes; [message] does not exist before the record is formatted. *)
Record LogRecord := {
  name : string;
  levelname : string;
  msg : string;
  args : Args;
  exc_info : option ExcInfo;
  exc_text : option string;
  stack_info : option string;
  message : option string;
}.

Definition with_args (a : Args) (r : LogRecord) : LogRecord :=
  {| name := name r; levelname := levelname r; msg := msg r; args := a;
     exc_info := exc_info r; exc_text := exc_text r;
     stack_info := stack_info r; message := message r |}.
Definition with_exc_text (t : option string) (r : LogRecord) : LogRecord :=
  {| name := name r; levelname := levelname r; msg := msg r; args := args r;
     exc_info := exc_info r; exc_text := t;
     stack_info := stack_info r; message := message r |}.
Definition with_message (m : option string) (r : LogRecord) : LogRecord :=
  {| name := name r; levelname := levelname r; msg := msg r; args := args r;
     exc_info := exc_info r; exc_text := exc_text r;
     stack_info := stack_info r; message := m |}.

(** The mutable state: the module global [MSG_ARGS_FORMAT] as it stands
    ([registry]), the dictionaries and the records alive, the template slot
    [_style._fmt] of the one [CustomFormatter], and the records handed to
    the logger so far, oldest first. *)
Record World := {
  registry : gmap string FieldStyle;
  dicts : list Dict;
  records : list LogRecord;
  style_fmt : string;
  emitted : list loc;
}.

Definition with_registry (g : gmap string FieldStyle) (w : World) : World :=
  {| registry := g; dicts := dicts w; records := records w;
     style_fmt := style_fmt w; emitted := emitted w |}.
Definition with_dicts (h : list Dict) (w : World) : World :=
  {| registry := registry w; dicts := h; records := records w;
     style_fmt := style_fmt w; emitted := emitted w |}.
Definition with_records (h : list LogRecord) (w : World) : World :=
  {| registry := registry w; dicts := dicts w; records := h;
     style_fmt := style_fmt w; emitted := emitted w |}.
Definition with_style_fmt (f : string) (w : World) : World :=
  {| registry := registry w; dicts := dicts w; records := records w;
     style_fmt := f; emitted := emitted w |}.
Definition with_emitted (e : list loc) (w : World) : World :=
  {| registry := registry w; dicts := dicts w; records := records w;
     style_fmt := style_fmt w; emitted := e |}.

(** A dictionary display or [{}]: a new object. *)
Definition new_dict (d : Dict) : M World loc :=
  mkM (λ w, (with_dicts (dicts w ++ [d]) w, Ok (length (dicts w)))).

(** Reading through a reference; a reference always points to an object,
    so the last case never runs. *)
Definition get_dict (l : loc) : M World Dict :=
  mkM (λ w, (w, match dicts w !! l with Some d => Ok d | None => OutOfModel end)).

Definition new_record (r : LogRecord) : M World loc :=
  mkM (λ w, (with_records (records w ++ [r]) w, Ok (length (records w)))).

Definition get_record (l : loc) : M World LogRecord :=
  mkM (λ w, (w, match records w !! l with Some r => Ok r | None => OutOfModel end)).

(** An attribute assignment [record.x = v]. *)
Definition set_record (l : loc) (f : LogRecord → LogRecord) : M World unit :=
  modify (λ w, with_records (alter f l (records w)) w).

(** Truth value of an optional text: [None] and [""] are false. *)
Definition truthy (t : option string) : bool :=
  match t with
  | Some (String _ _) => true
  | _ => false
  end.

(** ** The status classifier *)

(** The assertion [isinstance(status, int)] holds of every [Z]. *)
Definition inject_status_color (status : Z) : M World unit :=
  mkM (λ w,
    match registry w !! "status" with
    | None => (w, Raise KeyError)
    | Some c =>
        let c' := {| color := if bool_decide (status ∈ STATUS_OK)
                              then "green" else "red";
                     style := style c |} in
        (with_registry (<["status" := c']> (registry w)) w, Ok tt)
    end).

(** ** The argument formatter *)

(** The body of the loop of [format_args] up to the store into
    [formatted]: the value to store under [key]. *)
Definition format_value (reg : gmap string FieldStyle) (level : string)
    (key : string) (value : Value) : outcome Value :=
  match reg !! key with
  | Some c =>
      let style := default "normal" (style c) in
      VStr <$> AnsiColor.inject (str value) (color c) style level
  | None => Ok value
  end.

(** The loop of [format_args] over [args.items()], [formatted] the local
    dictionary it fills. *)
Definition format_items (reg : gmap string FieldStyle) (level : string)
    (items : Dict) : outcome Dict :=
  map_fold (λ key value (acc : outcome Dict),
              formatted ← acc;
              value' ← format_value reg level key value;
              Ok (<[key := value']> formatted))
           (Ok ∅) items.

(** [formatted] is local until it is returned: it becomes a new object of
    the heap when the loop has run to its end. *)
Definition format_args (args : loc) (level : string) : M World loc :=
  items ← get_dict args;
  w ← get;
  formatted ← liftO (format_items (registry w) level items);
  new_dict formatted.

(** ** The [%] operator on a format string

    The conversions the module's templates use, [%(key)s] and [%%], with
    [%s], [%d] and [%(key)d]; a flag, a width, a precision or another
    conversion is [OutOfModel]. [d] is the mapping on the right of [%]
    when it is one, [pos] the values of the tuple not yet consumed. *)

Inductive pmode :=
  | PText
  | PPercent
  | PKey (key : string)
  | PConv (v : Value).

Definition convert (c : ascii) (v : Value) : outcome string :=
  if decide (c = "s"%char) then Ok (str v)
  else if decide (c = "d"%char) then
    match v with
    | VInt n => Ok (str_int n)
    | VBool b => Ok (if b then "1" else "0")
    | _ => Raise TypeError
    end
  else OutOfModel.

Fixpoint percent (d : option Dict) (pos : list Value) (m : pmode)
    (s : string) : outcome string :=
  match s with
  | EmptyString =>
      match m with
      | PText => match pos with [] => Ok "" | _ => Raise TypeError end
      | _ => Raise ValueError
      end
  | String c s' =>
      match m with
      | PText =>
          if decide (c = "%"%char) then percent d pos PPercent s'
          else String c <$> percent d pos PText s'
      | PPercent =>
          if decide (c = "%"%char) then String c <$> percent d pos PText s'
          else if decide (c = "("%char) then
            match d with
            | Some _ => percent d pos (PKey "") s'
            | None => Raise TypeError
            end
          else
            match d, pos with
            | Some _, _ => OutOfModel
            | None, [] => Raise TypeError
            | None, v :: pos' =>
                t ← convert c v;
                String.append t <$> percent d pos' PText s'
            end
      | PKey key =>
          if decide (c = ")"%char) then
            match d with
            | Some items =>
                match items !! key with
                | Some v => percent d pos (PConv v) s'
                | None => Raise KeyError
                end
            | None => OutOfModel
            end
          else if decide (c = "("%char) then OutOfModel
          else percent d pos (PKey (key +:+ String c "")) s'
      | PConv v =>
          t ← convert c v;
          String.append t <$> percent d pos PText s'
      end
  end.

(** [fmt % record.args] for the arguments of a record. *)
Definition interpolate (fmt : string) (a : Args) : M World string :=
  match a with
  | ANone => mret fmt
  | ATuple vs => liftO (percent None vs PText fmt)
  | AMap l => items ← get_dict l; liftO (percent (Some items) [] PText fmt)
  end.

(** Truth value of [record.args]. *)
Definition args_truthy (a : Args) : M World bool :=
  match a with
  | ANone => mret false
  | ATuple vs => mret (bool_decide (vs ≠ []))
  | AMap l => items ← get_dict l; mret (bool_decide (items ≠ ∅))
  end.

(** [LogRecord.getMessage] of the logging library. *)
Definition getMessage (record : loc) : M World string :=
  r ← get_record record;
  t ← args_truthy (args r);
  if t : bool then interpolate (msg r) (args r) else mret (msg r).

(** The attributes of the record as [record.__dict__] shows them to the
    template; an attribute the model does not hold is [OutOfModel]. *)
Definition record_dict (r : LogRecord) : Dict :=
  let d : Dict := {[ "name" := VStr (name r);
                     "levelname" := VStr (levelname r);
                     "msg" := VStr (msg r) ]} in
  match message r with
  | Some m => <["message" := VStr m]> d
  | None => d
  end.

(** [Formatter.formatMessage] of the logging library:
    [self._style._fmt % record.__dict__]. *)
Definition formatMessage (record : loc) : M World string :=
  r ← get_record record;
  w ← get;
  liftO (match percent (Some (record_dict r)) [] PText (style_fmt w) with
         | Raise KeyError => OutOfModel
         | o => o
         end).

(** ** The access logger *)

Record HttpVersion := { major : Z; minor : Z }.

(** The attributes of the request and of the response that [log] reads. *)
Record BaseRequest := {
  method : string;
  path_qs : string;
  scheme : string;
  version : HttpVersion;
}.
Record StreamResponse := { status : Z; reason : string }.

(** [logger.debug(msg, args)], [logger.error(msg, args)]: the logger named
    [logger_name] is handed one record of that level, message template and
    argument mapping. Whether the logger's threshold then lets the record
    through to its handlers is the logging library's affair. *)
Definition logger_call (logger_name level : string) (fmt : string)
    (a : loc) : M World unit :=
  r ← new_record {| name := logger_name; levelname := level; msg := fmt;
                    args := AMap a; exc_info := None; exc_text := None;
                    stack_info := None; message := None |};
  modify (λ w, with_emitted (emitted w ++ [r]) w).

Module CustomAccessLogger.
Definition LOG_FORMAT : string :=
  "%(logger)s " +:+ dquote +:+ "%(method)s %(path)s %(version)s" +:+ dquote
  +:+ " => %(status)s %(time)s".

(** What [AbstractAccessLogger.__init__] stores. *)
Record t := { logger_name : string; log_format : string }.

(** The body of [log], over the two methods of [self.logger] it chooses
    from: [logger "DEBUG"] is [self.logger.debug] and [logger "ERROR"] is
    [self.logger.error], each taking the template and the mapping. *)
Definition log_with (logger : string → string → loc → M World unit)
    (self : t) (request : BaseRequest)
    (response : StreamResponse) (time : float) : M World unit :=
  let loggerlevel :=
    logger (if bool_decide (status response ∈ STATUS_OK)
            then "DEBUG" else "ERROR") in
  inject_status_color (status response) ;;
  ms ← liftO (py_round (time * 1000)%float);
  a ← new_dict (list_to_map [
    ("logger", VStr (logger_name self));
    ("method", VStr (method request));
    ("path", VStr (path_qs request));
    ("version", VStr (upper (scheme request) +:+ "/"
                      +:+ str_int (major (version request)) +:+ "."
                      +:+ str_int (minor (version request))));
    ("status", VStr (str_int (status response) +:+ ":" +:+ reason response));
    ("time", VStr (str_int ms +:+ "ms"))
  ]);
  loggerlevel (log_format self) a.

(** [log] with the logger of the logging library. *)
Definition log (self : t) (request : BaseRequest)
    (response : StreamResponse) (time : float) : M World unit :=
  log_with (logger_call (logger_name self)) self request response time.
End CustomAccessLogger.

(** ** The record formatter *)

Module CustomFormatter.
Definition default_fmt : string := "[%(levelname)s] %(message)s".

Definition LOG_LEVEL_FORMAT : gmap string string :=
  list_to_map [
    ("DEBUG", AnsiColor.DEBUG +:+ default_fmt +:+ AnsiColor.RESET_ALL);
    ("INFO", AnsiColor.INFO +:+ default_fmt +:+ AnsiColor.RESET_ALL);
    ("WARNING", AnsiColor.WARNING +:+ default_fmt +:+ AnsiColor.RESET_ALL);
    ("ERROR", AnsiColor.ERROR +:+ default_fmt +:+ AnsiColor.RESET_ALL);
    ("CRITICAL", AnsiColor.CRITICAL +:+ default_fmt +:+ AnsiColor.RESET_ALL)
  ].

(** [msg] with a newline added unless it ends with one. *)
Definition end_line (msg : string) : string :=
  if decide (last_char msg = NL) then msg else msg +:+ NL.

Section format.
(** The two methods inherited from [logging.Formatter]. *)
Variable formatException : ExcInfo → string.
Variable formatStack : string → string.

(** [if record.args and isinstance(record.args, MutableMapping):
     record.args = format_args(record.args, record.levelname)] *)
Definition colour_args (record : loc) : M World unit :=
  r ← get_record record;
  t ← args_truthy (args r);
  match args r with
  | AMap l =>
      if t : bool then
        l' ← format_args l (levelname r);
        set_record record (with_args (AMap l'))
      else mret tt
  | _ => mret tt
  end.

(** [if record.exc_info: if not record.exc_text:
     record.exc_text = self.formatException(record.exc_info)] *)
Definition render_exception (record : loc) : M World unit :=
  r ← get_record record;
  match exc_info r with
  | Some ei =>
      if truthy (exc_text r) then mret tt
      else set_record record (with_exc_text (Some (formatException ei)))
  | None => mret tt
  end.

(** The block under [if record.exc_text:]. *)
Definition append_exception (record : loc) (msg : string) : M World string :=
  r ← get_record record;
  match exc_text r with
  | Some text =>
      if truthy (exc_text r) then
        let msg := end_line msg +:+ text in
        c ← liftO (AnsiColor.getattr (levelname r));
        mret (replace_newline (NL +:+ c) msg)
      else mret msg
  | None => mret msg
  end.

(** The block under [if record.stack_info:]. *)
Definition append_stack (record : loc) (msg : string) : M World string :=
  r ← get_record record;
  match stack_info r with
  | Some stack =>
      if truthy (stack_info r)
      then mret (end_line msg +:+ formatStack stack)
      else mret msg
  | None => mret msg
  end.

(** [format], its statements in the order of the source. *)
Definition format (record : loc) : M World string :=
  r ← get_record record;
  let custom_fmt := default default_fmt (LOG_LEVEL_FORMAT !! levelname r) in
  modify (with_style_fmt custom_fmt) ;;
  colour_args record ;;
  msg ← getMessage record;
  render_exception record ;;
  msg ← append_exception record msg;
  msg ← append_stack record msg;
  set_record record (with_message (Some msg)) ;;
  formatMessage record.
End format.
End CustomFormatter.

(** The state when the module has been imported:
    [handler.setFormatter(CustomFormatter())] leaves the template slot at
    the default of the logging library. *)
Definition initial_world : World :=
  {| registry := MSG_ARGS_FORMAT; dicts := []; records := [];
     style_fmt := "%(message)s"; emitted := [] |}.

(** * The vocabulary of the properties *)

(** The colour the status slot of the registry holds. *)
Definition status_color (w : World) : option string :=
  color <$> registry w !! "status".

(** The state after the classifier has run on [n]. *)
Definition classified (n : Z) (c : FieldStyle) (w : World) : World :=
  with_registry
    (<["status" := {| color := if bool_decide (n ∈ STATUS_OK)
                               then "green" else "red";
                      style := style c |}]> (registry w)) w.

(** The dictionary display of [log], [ms] the rounded time. *)
Definition log_args (self : CustomAccessLogger.t) (request : BaseRequest)
    (response : StreamResponse) (ms : Z) : Dict :=
  list_to_map [
    ("logger", VStr (CustomAccessLogger.logger_name self));
    ("method", VStr (method request));
    ("path", VStr (path_qs request));
    ("version", VStr (upper (scheme request) +:+ "/"
                      +:+ str_int (major (version request)) +:+ "."
                      +:+ str_int (minor (version request))));
    ("status", VStr (str_int (status response) +:+ ":" +:+ reason response));
    ("time", VStr (str_int ms +:+ "ms"))
  ].

(** The colour the slot holds when the last status classified was [last],
    [None] when no status has been classified yet. *)
Definition slot_after (last : option Z) : string :=
  match last with
  | None => ""
  | Some n =>
      if decide (n = 200 ∨ n = 201 ∨ n = 204)%Z then "green" else "red"
  end.

(** The entry points of the module, as the server and the logging library
    call them. *)
Inductive Op :=
  | OpClassify (status : Z)
  | OpLog (self : CustomAccessLogger.t) (request : BaseRequest)
      (response : StreamResponse) (time : float)
  | OpFormatArgs (args : loc) (level : string)
  | OpFormat (record : loc).

(** The status classified last in a run of calls, if any. *)
Definition last_classified (ops : list Op) : option Z :=
  foldl (λ last op,
           match op with
           | OpClassify n => Some n
           | OpLog _ _ response _ => Some (status response)
           | _ => last
           end) None ops.

(** One call; the caller goes on whether it returns or raises. *)
Definition exec (formatException : ExcInfo → string)
    (formatStack : string → string) (op : Op) (w : World) : World :=
  match op with
  | OpClassify n => fst (runM (inject_status_color n) w)
  | OpLog self request response time =>
      fst (runM (CustomAccessLogger.log self request response time) w)
  | OpFormatArgs args level => fst (runM (format_args args level) w)
  | OpFormat record =>
      fst (runM (CustomFormatter.format formatException formatStack record) w)
  end.

(** A run of calls, one after the other. *)
Definition run (formatException : ExcInfo → string)
    (formatStack : string → string) (ops : list Op) (w : World) : World :=
  foldl (λ w op, exec formatException formatStack op w) w ops.

(** What the loop has done when it has run over [items]: every key has
    its formatted value, or some key made [inject] raise. *)
Definition loop_invariant (reg : gmap string FieldStyle) (level : string)
    (r : outcome Dict) (items : Dict) : Prop :=
  match r with
  | Ok formatted =>
      ∀ key,
        match items !! key with
        | Some value =>
            ∃ value', format_value reg level key value = Ok value'
                      ∧ formatted !! key = Some value'
        | None => formatted !! key = None
        end
  | Raise e =>
      e = AttributeError
      ∧ ∃ key value, items !! key = Some value
                     ∧ format_value reg level key value = Raise AttributeError
  | OutOfModel => False
  end.

(** [keeps R m]: whatever the outcome of [m], an exception included, the
    state it leaves is related by [R] to the state it started from. *)
Definition keeps {A} (R : relation World) (m : M World A) : Prop :=
  ∀ w, R w (fst (runM m w)).

(** The frame of formatting the record at [record]: the registry and the
    list of emitted records are as before, every dictionary that existed
    is as before (new ones may follow), and every other record is as
    before. *)
Definition frame (record : loc) (w w' : World) : Prop :=
  registry w' = registry w
  ∧ emitted w' = emitted w
  ∧ dicts w `prefix_of` dicts w'
  ∧ length (records w') = length (records w)
  ∧ ∀ l, l ≠ record → records w' !! l = records w !! l.

(** The same as [frame] for the template slot alone. *)
Definition same_style (w w' : World) : Prop := style_fmt w' = style_fmt w.

(** The message [getMessage] returns for the record [r] in the state [w]. *)
Definition message_of (w : World) (r : LogRecord) : outcome string :=
  match args r with
  | ANone => Ok (msg r)
  | ATuple vs =>
      if bool_decide (vs ≠ []) then percent None vs PText (msg r)
      else Ok (msg r)
  | AMap l =>
      match dicts w !! l with
      | Some items =>
          if bool_decide (items ≠ ∅)
          then percent (Some items) [] PText (msg r)
          else Ok (msg r)
      | None => OutOfModel
      end
  end.

(** The text of the exception once [render_exception] has run. *)
Definition exception_text (formatException : ExcInfo → string)
    (r : LogRecord) : option string :=
  match exc_info r with
  | Some ei =>
      if truthy (exc_text r) then exc_text r
      else Some (formatException ei)
  | None => exc_text r
  end.

(** The message once the block under [if record.exc_text:] has run. *)
Definition with_exception_text (r : LogRecord) (msg : string)
    : outcome string :=
  match exc_text r with
  | Some text =>
      if truthy (exc_text r) then
        c ← AnsiColor.getattr (levelname r);
        Ok (replace_newline (NL +:+ c) (CustomFormatter.end_line msg +:+ text))
      else Ok msg
  | None => Ok msg
  end.

(** The message once the block under [if record.stack_info:] has run. *)
Definition with_stack_text (formatStack : string → string) (r : LogRecord)
    (msg : string) : string :=
  match stack_info r with
  | Some stack =>
      if truthy (stack_info r)
      then CustomFormatter.end_line msg +:+ formatStack stack
      else msg
  | None => msg
  end.

(** No conversion in [s]. *)
Fixpoint plain (s : string) : bool :=
  match s with
  | EmptyString => true
  | String c s' => negb (bool_decide (c = "%"%char)) && plain s'
  end.

(** No parenthesis in [s]. *)
Fixpoint key_text (s : string) : bool :=
  match s with
  | EmptyString => true
  | String c s' =>
      negb (bool_decide (c = ")"%char)) && negb (bool_decide (c = "("%char))
      && key_text s'
  end.

(** The texts around the default template in the template of a level. *)
Definition template_parts (levelname : string) : string * string :=
  match CustomFormatter.LOG_LEVEL_FORMAT !! levelname with
  | Some _ => (default "" (AnsiColor.attrs !! levelname), AnsiColor.RESET_ALL)
  | None => ("", "")
  end.

(** The state in which the record at [record] is [r]. *)
Definition store (record : loc) (r : LogRecord) (w : World) : World :=
  with_records (<[record := r]> (records w)) w.

(** The line [formatMessage] makes of the record [r] with the template
    [fmt]. *)
Definition final_line (fmt : string) (r : LogRecord) : outcome string :=
  match percent (Some (record_dict r)) [] PText fmt with
  | Raise KeyError => OutOfModel
  | o => o
  end.

(** The record once the exception has been rendered. *)
Definition rendered (formatException : ExcInfo → string) (r : LogRecord)
    : LogRecord :=
  with_exc_text (exception_text formatException r) r.

(** What [format] does from the base message [m] on, the record being
    [r1] in the state [w1]. *)
Definition finish (formatException : ExcInfo → string)
    (formatStack : string → string) (w1 : World) (record : loc)
    (r1 : LogRecord) (m : string) : World * outcome string :=
  let r2 := rendered formatException r1 in
  match with_exception_text r2 m with
  | Ok m' =>
      let r3 := with_message (Some (with_stack_text formatStack r2 m')) r2 in
      (store record r3 w1, final_line (style_fmt w1) r3)
  | Raise e => (store record r2 w1, Raise e)
  | OutOfModel => (store record r2 w1, OutOfModel)
  end.

(** [format] up to [msg = record.getMessage()], the template slot set
    aside: the arguments are coloured and the message is interpolated. *)
Definition base_message (record : loc) : M World string :=
  CustomFormatter.colour_args record ;; getMessage record.

(** The message as C2 words it: the base message, a newline, then the
    exception text with the colour code after each of its own newlines. *)
Definition message_as_claimed (c base text : string) : string :=
  CustomFormatter.end_line base +:+ replace_newline (NL +:+ c) text.

(** [s.split("\n")]: the lines a line-oriented transport makes of [s]. *)
Fixpoint split_lines (s : string) : list string :=
  match s with
  | EmptyString => [""]
  | String c s' =>
      if decide (c = newline) then "" :: split_lines s'
      else
        match split_lines s' with
        | l :: ls => String c l :: ls
        | [] => [String c ""]
        end
  end.

(** No newline in [s]. *)
Fixpoint one_line (s : string) : bool :=
  match s with
  | EmptyString => true
  | String c s' => negb (bool_decide (c = newline)) && one_line s'
  end.

(** Two values that [%s] and [%d] treat alike: the same value, or two
    texts. *)
Definition alike (v v' : Value) : Prop :=
  v = v' ∨ ∃ s s', v = VStr s ∧ v' = VStr s'.

(** The same for two states of the scan of a format string. *)
Definition alike_mode (m m' : pmode) : Prop :=
  match m, m' with
  | PText, PText => True
  | PPercent, PPercent => True
  | PKey key, PKey key' => key = key'
  | PConv v, PConv v' => alike v v'
  | _, _ => False
  end.

(** Two mappings with the same keys and, under each key, values alike. *)
Definition alike_dict (d d' : Dict) : Prop :=
  ∀ key,
    match d !! key, d' !! key with
    | Some v, Some v' => alike v v'
    | None, None => True
    | _, _ => False
    end.

(** * Properties *)

(** ** Running the monad *)

Lemma runM_bind {S A B} (m : M S A) (f : A → M S B) (s : S) :
  runM (m ≫= f) s =
    match runM m s with
    | (s', Ok a) => runM (f a) s'
    | (s', Raise e) => (s', Raise e)
    | (s', OutOfModel) => (s', OutOfModel)
    end.
Proof. reflexivity. Qed.

Ltac world_simpl :=
  cbn [registry dicts records style_fmt emitted fst snd
       with_registry with_dicts with_records with_style_fmt with_emitted].

(** ** Text *)

Lemma string_app_cons (x : ascii) (a b : string) :
  String x a +:+ b = String x (a +:+ b).
Proof. reflexivity. Qed.

Lemma string_app_assoc (a b c : string) : (a +:+ b) +:+ c = a +:+ b +:+ c.
Proof.
  induction a as [|x a IH]; [done |].
  by rewrite !string_app_cons, IH.
Qed.

Lemma string_app_nil_r (a : string) : a +:+ "" = a.
Proof.
  induction a as [|x a IH]; [done |].
  by rewrite string_app_cons, IH.
Qed.

Lemma string_length_app (a b : string) :
  String.length (a +:+ b) = String.length a + String.length b.
Proof.
  induction a as [|x a IH]; [done |].
  rewrite string_app_cons. simpl. by rewrite IH.
Qed.

Lemma replace_newline_app (new a b : string) :
  replace_newline new (a +:+ b)
  = replace_newline new a +:+ replace_newline new b.
Proof.
  induction a as [|x a IH]; [done |].
  rewrite string_app_cons. simpl.
  case_decide; rewrite IH; [by rewrite string_app_assoc | done].
Qed.

Lemma py_round_finite (x : float) :
  is_finite x = true → ∃ n, py_round x = Ok n.
Proof.
  unfold is_finite, py_round.
  destruct (Prim2SF x); intros; try discriminate; eauto.
Qed.

(** ** The colour codec *)



(** ** The access logger *)

Lemma elem_of_STATUS_OK (n : Z) :
  n ∈ STATUS_OK ↔ (n = 200 ∨ n = 201 ∨ n = 204)%Z.
Proof.
  unfold STATUS_OK. rewrite !elem_of_cons, elem_of_nil. tauto.
Qed.

Lemma inject_status_color_run (n : Z) (w : World) (c : FieldStyle) :
  registry w !! "status" = Some c →
  runM (inject_status_color n) w = (classified n c w, Ok tt).
Proof. intros Hc. unfold inject_status_color. cbn [runM]. by rewrite Hc. Qed.

Lemma status_color_classified (n : Z) (c : FieldStyle) (w : World) :
  status_color (classified n c w)
  = Some (if bool_decide (n ∈ STATUS_OK) then "green" else "red").
Proof.
  unfold status_color, classified. cbn [registry with_registry].
  by rewrite lookup_insert_eq.
Qed.

Lemma log_args_nonempty self request response ms :
  log_args self request response ms ≠ ∅.
Proof.
  intros H. apply (f_equal (λ m : Dict, m !! "logger")) in H.
  unfold log_args in H.
  rewrite list_to_map_cons, lookup_insert_eq, lookup_empty in H.
  discriminate.
Qed.

Lemma logger_call_run (logger_name level fmt : string) (a : loc) (w : World) :
  runM (logger_call logger_name level fmt a) w
  = (with_emitted (emitted w ++ [length (records w)])
       (with_records
          (records w ++ [ {| name := logger_name; levelname := level;
                             msg := fmt; args := AMap a;
                             exc_info := None; exc_text := None;
                             stack_info := None; message := None |} ]) w),
     Ok tt).
Proof. reflexivity. Qed.

(** [log] is the classifier, then the dictionary display, then the one
    call to the logger. *)
Lemma log_with_run (logger : string → string → loc → M World unit)
    (self : CustomAccessLogger.t) (request : BaseRequest)
    (response : StreamResponse) (time : float) (w : World)
    (c : FieldStyle) (ms : Z) :
  registry w !! "status" = Some c →
  py_round (time * 1000)%float = Ok ms →
  runM (CustomAccessLogger.log_with logger self request response time) w
  = runM (logger (if bool_decide (status response ∈ STATUS_OK)
                  then "DEBUG" else "ERROR")
            (CustomAccessLogger.log_format self) (length (dicts w)))
         (with_dicts (dicts w ++ [log_args self request response ms])
            (classified (status response) c w)).
Proof.
  intros Hc Hms.
  unfold CustomAccessLogger.log_with.
  rewrite runM_bind, (inject_status_color_run _ _ _ Hc).
  rewrite runM_bind. cbn [runM liftO]. rewrite Hms.
  rewrite runM_bind. unfold new_dict at 1. cbn [runM].
  reflexivity.
Qed.

Lemma log_run (self : CustomAccessLogger.t) (request : BaseRequest)
    (response : StreamResponse) (time : float) (w : World)
    (c : FieldStyle) (ms : Z) :
  registry w !! "status" = Some c →
  py_round (time * 1000)%float = Ok ms →
  runM (CustomAccessLogger.log self request response time) w
  = runM (logger_call (CustomAccessLogger.logger_name self)
            (if bool_decide (status response ∈ STATUS_OK)
             then "DEBUG" else "ERROR")
            (CustomAccessLogger.log_format self) (length (dicts w)))
         (with_dicts (dicts w ++ [log_args self request response ms])
            (classified (status response) c w)).
Proof.
  intros Hc Hms. unfold CustomAccessLogger.log.
  exact (log_with_run _ self request response time w c ms Hc Hms).
Qed.

(** C1. For a completed exchange, whose elapsed time is a finite number,
    [log] makes exactly one call to its logger and hands it exactly one
    record. The call is to [debug] when the status code is 200, 201 or
    204 and to [error] for every other code, and it is made after the
    classifier has run: whatever the method of the logger does with the
    state, it starts in a state whose status colour slot already holds
    "green" for the first three codes and "red" for the others, and in
    which no record has been created or emitted yet. With the logger of
    the logging library, the call appends one record of that level to
    the records emitted. *)
Theorem log_emits_one_record (self : CustomAccessLogger.t)
    (request : BaseRequest) (response : StreamResponse) (time : float)
    (w : World) :
  is_Some (registry w !! "status") →
  is_finite (time * 1000)%float = true →
  let success :=
    (status response = 200 ∨ status response = 201 ∨ status response = 204)%Z in
  ∃ (level colour : string) (w1 : World) (a : loc),
    (success → level = "DEBUG" ∧ colour = "green")
    ∧ (¬ success → level = "ERROR" ∧ colour = "red")
    ∧ status_color w1 = Some colour
    ∧ records w1 = records w
    ∧ emitted w1 = emitted w
    ∧ (∀ logger : string → string → loc → M World unit,
         runM (CustomAccessLogger.log_with logger self request response time)
           w
         = runM (logger level (CustomAccessLogger.log_format self) a) w1)
    ∧ runM (CustomAccessLogger.log self request response time) w
      = runM (logger_call (CustomAccessLogger.logger_name self) level
                (CustomAccessLogger.log_format self) a) w1
    ∧ snd (runM (CustomAccessLogger.log self request response time) w) = Ok tt
    ∧ emitted (fst (runM (CustomAccessLogger.log self request response time) w))
      = emitted w ++ [length (records w)]
    ∧ records (fst (runM (CustomAccessLogger.log self request response time) w))
      = records w ++ [ {| name := CustomAccessLogger.logger_name self;
                          levelname := level;
                          msg := CustomAccessLogger.log_format self;
                          args := AMap a;
                          exc_info := None; exc_text := None;
                          stack_info := None; message := None |} ].
Proof.
  intros [c Hc] Hfin success.
  destruct (py_round_finite _ Hfin) as [ms Hms].
  pose proof (log_run self request response time w c ms Hc Hms) as Hrun.
  pose proof (λ logger,
                log_with_run logger self request response time w c ms Hc Hms)
    as Hwith.
  set (items := log_args self request response ms) in *.
  set (ok := bool_decide (status response ∈ STATUS_OK)) in *.
  exists (if ok then "DEBUG" else "ERROR"), (if ok then "green" else "red").
  exists (with_dicts (dicts w ++ [items]) (classified (status response) c w)).
  exists (length (dicts w)).
  split; [|split; [|split; [|split; [|split; [|split; [|split]]]]]].
  - intros Hs. apply elem_of_STATUS_OK in Hs.
    unfold ok. by rewrite bool_decide_eq_true_2.
  - intros Hs. unfold success in Hs. rewrite <- elem_of_STATUS_OK in Hs.
    unfold ok. by rewrite bool_decide_eq_false_2.
  - unfold status_color. cbn [registry with_dicts classified with_registry].
    by rewrite lookup_insert_eq.
  - reflexivity.
  - reflexivity.
  - exact Hwith.
  - exact Hrun.
  - rewrite Hrun. repeat split.
Qed.

Lemma log_emits_one_record_witness :
  ∃ level colour w1 a,
    status_color w1 = Some colour
    ∧ level = "DEBUG" ∧ colour = "green"
    ∧ emitted w1 = []
    ∧ (∀ logger : string → string → loc → M World unit,
         runM (CustomAccessLogger.log_with logger
                 {| CustomAccessLogger.logger_name := "bot";
                    CustomAccessLogger.log_format :=
                      CustomAccessLogger.LOG_FORMAT |}
                 {| method := "POST"; path_qs := "/"; scheme := "https";
                    version := {| major := 1; minor := 1 |} |}
                 {| status := 204; reason := "No Content" |} 0.25%float)
           initial_world
         = runM (logger level CustomAccessLogger.LOG_FORMAT a) w1)
    ∧ runM (CustomAccessLogger.log
              {| CustomAccessLogger.logger_name := "bot";
                 CustomAccessLogger.log_format := CustomAccessLogger.LOG_FORMAT |}
              {| method := "POST"; path_qs := "/"; scheme := "https";
                 version := {| major := 1; minor := 1 |} |}
              {| status := 204; reason := "No Content" |} 0.25%float)
           initial_world
      = runM (logger_call "bot" level CustomAccessLogger.LOG_FORMAT a) w1.
Proof.
  destruct (log_emits_one_record
              {| CustomAccessLogger.logger_name := "bot";
                 CustomAccessLogger.log_format := CustomAccessLogger.LOG_FORMAT |}
              {| method := "POST"; path_qs := "/"; scheme := "https";
                 version := {| major := 1; minor := 1 |} |}
              {| status := 204; reason := "No Content" |} 0.25%float
              initial_world)
    as (level & colour & w1 & a & Hok & _ & Hcol & _ & Hem & Hwith & Hrun & _).
  - eexists. vm_compute. reflexivity.
  - vm_compute. reflexivity.
  - exists level, colour, w1, a.
    destruct Hok as [-> ->]; [right; right; reflexivity |].
    repeat split; assumption.
Defined.

Lemma getMessage_run (w : World) (record : loc) (r : LogRecord) (l : loc)
    (items : Dict) :
  records w !! record = Some r →
  args r = AMap l →
  dicts w !! l = Some items →
  items ≠ ∅ →
  runM (getMessage record) w = (w, percent (Some items) [] PText (msg r)).
Proof.
  intros Hr Ha Hl Hne. unfold getMessage.
  rewrite runM_bind. unfold get_record at 1. cbn [runM]. rewrite Hr.
  rewrite Ha. unfold args_truthy, interpolate.
  rewrite !runM_bind. unfold get_dict. cbn [runM]. rewrite Hl.
  cbn [runM mret M_ret].
  rewrite bool_decide_eq_true_2 by done.
  rewrite runM_bind. cbn [runM liftO]. rewrite Hl. reflexivity.
Qed.

(** C7. A logger named "bot", the fixed template: GET /webhook over
    HTTP/1.1 answered 200 OK in 0.0123 s gives one DEBUG record whose
    message is [bot "GET /webhook HTTP/1.1" => 200:OK 12ms]; POST
    /hook?x=1 over HTTP/1.1 answered 500 Internal Server Error in 1.2 s
    gives one ERROR record whose message is
    [bot "POST /hook?x=1 HTTP/1.1" => 500:Internal Server Error 1200ms]. *)
Theorem access_log_scenarios (w : World) :
  is_Some (registry w !! "status") →
  let bot := {| CustomAccessLogger.logger_name := "bot";
                CustomAccessLogger.log_format := CustomAccessLogger.LOG_FORMAT |} in
  let http11 := {| major := 1; minor := 1 |} in
  let emits request response time level text :=
    let w' := fst (runM (CustomAccessLogger.log bot request response time) w) in
    emitted w' = emitted w ++ [length (records w)]
    ∧ length (records w') = S (length (records w))
    ∧ levelname <$> records w' !! length (records w) = Some level
    ∧ snd (runM (getMessage (length (records w))) w') = Ok text in
  emits {| method := "GET"; path_qs := "/webhook"; scheme := "http";
           version := http11 |}
        {| status := 200; reason := "OK" |} 0.0123%float "DEBUG"
        ("bot " +:+ dquote +:+ "GET /webhook HTTP/1.1" +:+ dquote
         +:+ " => 200:OK 12ms")
  ∧ emits {| method := "POST"; path_qs := "/hook?x=1"; scheme := "http";
             version := http11 |}
          {| status := 500; reason := "Internal Server Error" |} 1.2%float
          "ERROR"
          ("bot " +:+ dquote +:+ "POST /hook?x=1 HTTP/1.1" +:+ dquote
           +:+ " => 500:Internal Server Error 1200ms").
Proof.
  intros [c Hc] bot http11 emits.
  assert (Ha : py_round (0.0123 * 1000)%float = Ok 12%Z)
    by (vm_compute; reflexivity).
  assert (Hb : py_round (1.2 * 1000)%float = Ok 1200%Z)
    by (vm_compute; reflexivity).
  split; unfold emits.
  - rewrite (log_run bot _ _ 0.0123%float w c 12%Z Hc Ha), logger_call_run. cbn [fst].
    split; [done |]. split; [cbn; rewrite length_app; simpl; lia |].
    split; [cbn; by rewrite lookup_app_r, Nat.sub_diag by lia |].
    erewrite getMessage_run; cycle 1.
    + unfold classified. world_simpl.
      by rewrite lookup_app_r, Nat.sub_diag by lia.
    + reflexivity.
    + unfold classified. world_simpl.
      by rewrite lookup_app_r, Nat.sub_diag by lia.
    + apply log_args_nonempty.
    + cbn [snd]. vm_compute. reflexivity.
  - rewrite (log_run bot _ _ 1.2%float w c 1200%Z Hc Hb), logger_call_run. cbn [fst].
    split; [done |]. split; [cbn; rewrite length_app; simpl; lia |].
    split; [cbn; by rewrite lookup_app_r, Nat.sub_diag by lia |].
    erewrite getMessage_run; cycle 1.
    + unfold classified. world_simpl.
      by rewrite lookup_app_r, Nat.sub_diag by lia.
    + reflexivity.
    + unfold classified. world_simpl.
      by rewrite lookup_app_r, Nat.sub_diag by lia.
    + apply log_args_nonempty.
    + cbn [snd]. vm_compute. reflexivity.
Qed.

Lemma access_log_scenarios_witness :
  snd (runM (getMessage 0)
         (fst (runM (CustomAccessLogger.log
                       {| CustomAccessLogger.logger_name := "bot";
                          CustomAccessLogger.log_format :=
                            CustomAccessLogger.LOG_FORMAT |}
                       {| method := "GET"; path_qs := "/webhook";
                          scheme := "http";
                          version := {| major := 1; minor := 1 |} |}
                       {| status := 200; reason := "OK" |} 0.0123%float)
                initial_world)))
  = Ok ("bot " +:+ dquote +:+ "GET /webhook HTTP/1.1" +:+ dquote
        +:+ " => 200:OK 12ms").
Proof.
  destruct (access_log_scenarios initial_world) as [(_ & _ & _ & H) _].
  - eexists. vm_compute. reflexivity.
  - exact H.
Defined.

(** ** The argument formatter *)

Lemma inject_outcome (text color style reset : string) :
  is_Ok (AnsiColor.inject text color style reset)
  ∨ AnsiColor.inject text color style reset = Raise AttributeError.
Proof.
  unfold AnsiColor.inject, AnsiColor.getattr_upper.
  destruct (AnsiColor.attrs !! upper color); [| by right].
  destruct (AnsiColor.attrs !! upper style); [| by right].
  destruct (AnsiColor.attrs !! upper reset); [| by right].
  left. by eexists.
Qed.

Lemma format_value_outcome reg level key value :
  is_Ok (format_value reg level key value)
  ∨ format_value reg level key value = Raise AttributeError.
Proof.
  unfold format_value. destruct (reg !! key) as [c|]; [| left; by eexists].
  destruct (inject_outcome (str value) (color c)
              (default "normal" (style c)) level) as [[s ->] | ->];
    [left; by eexists | by right].
Qed.

Lemma format_items_invariant reg level (items : Dict) :
  loop_invariant reg level (format_items reg level items) items.
Proof.
  unfold format_items.
  apply (map_fold_weak_ind (loop_invariant reg level)).
  - intros key. by rewrite !lookup_empty.
  - intros key value m r Hfresh IH.
    destruct r as [formatted | e |]; cbn [mbind outcome_bind]; [| | done].
    + destruct (format_value_outcome reg level key value) as [[v' Hv] | Hv];
        rewrite Hv; cbn [mbind outcome_bind loop_invariant].
      * intros k. destruct (decide (key = k)) as [<- | Hne].
        -- rewrite !lookup_insert_eq. eauto.
        -- rewrite !lookup_insert_ne by done. apply IH.
      * split; [done |]. exists key, value.
        by rewrite lookup_insert_eq.
    + destruct IH as [-> (k & v & Hk & Hv)]. split; [done |].
      exists k, v. split; [| done].
      rewrite lookup_insert_ne; [done |]. intros ->. congruence.
Qed.

Lemma format_items_dom reg level (items formatted : Dict) :
  format_items reg level items = Ok formatted → dom formatted = dom items.
Proof.
  intros H. pose proof (format_items_invariant reg level items) as Hinv.
  rewrite H in Hinv. cbn in Hinv.
  apply set_eq. intros k. rewrite !elem_of_dom.
  specialize (Hinv k). destruct (items !! k) as [v|].
  - destruct Hinv as (v' & _ & ->). split; eauto.
  - rewrite Hinv. split; intros [? ?]; discriminate.
Qed.

Lemma format_items_lookup reg level (items formatted : Dict) key value :
  format_items reg level items = Ok formatted →
  items !! key = Some value →
  ∃ value', format_value reg level key value = Ok value'
            ∧ formatted !! key = Some value'.
Proof.
  intros H Hk. pose proof (format_items_invariant reg level items) as Hinv.
  rewrite H in Hinv. specialize (Hinv key). by rewrite Hk in Hinv.
Qed.

Lemma format_items_total reg level (items : Dict) :
  (∀ key value, items !! key = Some value →
                is_Ok (format_value reg level key value)) →
  is_Ok (format_items reg level items).
Proof.
  intros Hall. pose proof (format_items_invariant reg level items) as Hinv.
  destruct (format_items reg level items) as [formatted | e |];
    [by eexists | | done].
  destruct Hinv as [_ (k & v & Hk & Hv)].
  destruct (Hall k v Hk) as [v' Hv']. congruence.
Qed.

Lemma format_items_raises reg level (items : Dict) key value :
  items !! key = Some value →
  format_value reg level key value = Raise AttributeError →
  format_items reg level items = Raise AttributeError.
Proof.
  intros Hk Hv. pose proof (format_items_invariant reg level items) as Hinv.
  destruct (format_items reg level items) as [formatted | e |]; [| | done].
  - cbn [loop_invariant] in Hinv.
    specialize (Hinv key). rewrite Hk in Hinv.
    destruct Hinv as (v' & Hv' & _). congruence.
  - by destruct Hinv as [-> _].
Qed.

Lemma format_args_run (w : World) (args : loc) (level : string)
    (items : Dict) :
  dicts w !! args = Some items →
  runM (format_args args level) w
  = match format_items (registry w) level items with
    | Ok formatted =>
        (with_dicts (dicts w ++ [formatted]) w, Ok (length (dicts w)))
    | Raise e => (w, Raise e)
    | OutOfModel => (w, OutOfModel)
    end.
Proof.
  intros Hl. unfold format_args.
  rewrite runM_bind. unfold get_dict at 1. cbn [runM]. rewrite Hl.
  rewrite runM_bind. cbn [runM get].
  rewrite runM_bind. cbn [runM liftO].
  by destruct (format_items (registry w) level items).
Qed.

(** C4, as stated, fails: [format_args] returns no mapping when [inject]
    raises. It does for a mapping with a "status" key as long as no status
    has been classified, the colour of that entry being the empty string,
    and for a mapping with a registered key when the level names no
    attribute of the codec. *)
Lemma format_args_may_raise :
  let run (items : Dict) level :=
    snd (runM (format_args 0 level) (with_dicts [items] initial_world)) in
  run {[ "status" := VStr "200:OK" ]} "INFO" = Raise AttributeError
  ∧ ¬ is_Ok (run {[ "status" := VStr "200:OK" ]} "INFO")
  ∧ run {[ "time" := VStr "3ms" ]} "TRACE" = Raise AttributeError.
Proof.
  cbv beta zeta.
  assert (H : snd (runM (format_args 0 "INFO")
                     (with_dicts [ ({[ "status" := VStr "200:OK" ]} : Dict) ]
                        initial_world))
              = Raise AttributeError) by (vm_compute; reflexivity).
  rewrite H. split; [done |]. split.
  - intros [l Hl]. discriminate.
  - vm_compute. reflexivity.
Qed.

(** C4, amended. When [inject] succeeds on every value of the input whose
    key is in the registry, [format_args] returns a new mapping with the
    key set of the input: a value whose key is in the registry is replaced
    by [inject(str(value), color, style or "normal", level)], a value
    whose key is not is carried through unchanged. The result is a new
    object, and the input mapping, like every other mapping, is left as
    it was. When [inject] raises on some such value, [format_args] raises
    [AttributeError], returns no mapping and changes nothing. *)
Theorem format_args_copies (w : World) (args : loc) (level : string)
    (items : Dict) :
  dicts w !! args = Some items →
  ((∀ key value c,
      items !! key = Some value → registry w !! key = Some c →
      is_Ok (AnsiColor.inject (str value) (color c)
               (default "normal" (style c)) level)) →
   ∃ formatted : Dict,
     runM (format_args args level) w
     = (with_dicts (dicts w ++ [formatted]) w, Ok (length (dicts w)))
     ∧ dom formatted = dom items
     ∧ (∀ key value c,
          items !! key = Some value → registry w !! key = Some c →
          ∃ text,
            AnsiColor.inject (str value) (color c)
              (default "normal" (style c)) level = Ok text
            ∧ formatted !! key = Some (VStr text))
     ∧ (∀ key value,
          items !! key = Some value → registry w !! key = None →
          formatted !! key = Some value)
     ∧ length (dicts w) ≠ args
     ∧ (∀ l d, dicts w !! l = Some d →
               (dicts w ++ [formatted]) !! l = Some d))
  ∧ (∀ key value c,
       items !! key = Some value → registry w !! key = Some c →
       ¬ is_Ok (AnsiColor.inject (str value) (color c)
                  (default "normal" (style c)) level) →
       runM (format_args args level) w = (w, Raise AttributeError)).
Proof.
  intros Hl. rewrite (format_args_run w args level items Hl). split.
  - intros Hall.
    destruct (format_items_total (registry w) level items) as [formatted Hf].
    { intros key value Hk. unfold format_value.
      destruct (registry w !! key) as [c|] eqn:Hc; [| by eexists].
      destruct (Hall key value c Hk Hc) as [text ->]. by eexists. }
    exists formatted. rewrite Hf.
    split; [done |]. split; [by eapply format_items_dom |].
    split; [| split; [| split]].
    + intros key value c Hk Hc.
      destruct (format_items_lookup _ _ _ _ _ _ Hf Hk) as (v' & Hv & Hlook).
      unfold format_value in Hv. rewrite Hc in Hv.
      destruct (AnsiColor.inject (str value) (color c)
                  (default "normal" (style c)) level) as [text | |];
        try discriminate.
      exists text. split; [done |]. rewrite Hlook. by inversion Hv.
    + intros key value Hk Hc.
      destruct (format_items_lookup _ _ _ _ _ _ Hf Hk) as (v' & Hv & Hlook).
      unfold format_value in Hv. rewrite Hc in Hv. congruence.
    + apply lookup_lt_Some in Hl. lia.
    + intros l d Hd. rewrite lookup_app_l; [done |].
      by apply lookup_lt_Some in Hd.
  - intros key value c Hk Hc Hfail.
    rewrite (format_items_raises (registry w) level items key value Hk);
      [done |].
    unfold format_value. rewrite Hc.
    destruct (inject_outcome (str value) (color c)
                (default "normal" (style c)) level) as [Hok | ->]; done.
Qed.

Lemma format_args_copies_witness :
  let w := with_dicts [ ({[ "time" := VStr "3ms" ]} : Dict) ] initial_world in
  ∃ formatted : Dict,
    runM (format_args 0 "INFO") w
    = (with_dicts (dicts w ++ [formatted]) w, Ok 1)
    ∧ dom formatted = dom ({[ "time" := VStr "3ms" ]} : Dict).
Proof.
  cbv zeta.
  destruct (format_args_copies
              (with_dicts [ ({[ "time" := VStr "3ms" ]} : Dict) ] initial_world)
              0 "INFO" {[ "time" := VStr "3ms" ]}) as [Hok _].
  - reflexivity.
  - destruct Hok as (formatted & Hrun & Hdom & _).
    + intros key value c Hk Hc.
      destruct (decide (key = "time")) as [-> | Hne].
      * rewrite lookup_singleton_eq in Hk. inversion Hk; subst value.
        vm_compute in Hc. inversion Hc; subst c.
        eexists. vm_compute. reflexivity.
      * by rewrite lookup_singleton_ne in Hk.
    + exists formatted. split; [exact Hrun | exact Hdom].
Defined.

(** ** What an operation leaves alone *)

Section keeps.
Context (R : relation World) `{!PreOrder R}.

Lemma keeps_mret {A} (a : A) : keeps R (mret a).
Proof. intros w. reflexivity. Qed.

Lemma keeps_liftO {A} (o : outcome A) : keeps R (liftO o).
Proof. intros w. reflexivity. Qed.

Lemma keeps_get : keeps R get.
Proof. intros w. reflexivity. Qed.

Lemma keeps_get_dict (l : loc) : keeps R (get_dict l).
Proof. intros w. reflexivity. Qed.

Lemma keeps_get_record (l : loc) : keeps R (get_record l).
Proof. intros w. reflexivity. Qed.

Lemma keeps_bind {A B} (m : M World A) (f : A → M World B) :
  keeps R m → (∀ a, keeps R (f a)) → keeps R (m ≫= f).
Proof.
  intros Hm Hf w. rewrite runM_bind.
  specialize (Hm w). destruct (runM m w) as [w1 [a | e |]]; [| done | done].
  etrans; [exact Hm |]. apply Hf.
Qed.
End keeps.

Ltac frame_split :=
  unfold frame; world_simpl; split; [| split; [| split; [| split]]].

Global Instance frame_preorder (record : loc) : PreOrder (frame record).
Proof.
  split.
  - intros w. by frame_split.
  - intros w1 w2 w3 (Hr1 & He1 & Hd1 & Hn1 & Ho1) (Hr2 & He2 & Hd2 & Hn2 & Ho2).
    frame_split; try congruence.
    + by etrans.
    + intros l Hl. by rewrite Ho2, Ho1.
Qed.

Lemma keeps_frame_set_record (record : loc) (f : LogRecord → LogRecord) :
  keeps (frame record) (set_record record f).
Proof.
  intros w. unfold set_record, modify. cbn [runM fst].
  frame_split; try done.
  - by rewrite length_alter.
  - intros l Hl. by rewrite list_lookup_alter_ne.
Qed.

Lemma keeps_frame_style_fmt (record : loc) (f : string) :
  keeps (frame record) (modify (with_style_fmt f)).
Proof. intros w. by frame_split. Qed.

Lemma keeps_frame_new_dict (record : loc) (d : Dict) :
  keeps (frame record) (new_dict d).
Proof.
  intros w. unfold new_dict. cbn [runM fst].
  frame_split; try done. by apply prefix_app_r.
Qed.

Global Instance same_style_preorder : PreOrder same_style.
Proof. split; unfold same_style; [done | congruence]. Qed.

Lemma keeps_style_set_record (record : loc) (f : LogRecord → LogRecord) :
  keeps same_style (set_record record f).
Proof. intros w. reflexivity. Qed.

Lemma keeps_style_new_dict (d : Dict) : keeps same_style (new_dict d).
Proof. intros w. reflexivity. Qed.

Ltac keeps_step :=
  first
    [ match goal with |- PreOrder _ => apply _ end
    | match goal with |- ∀ _, _ => intros ? end
    | assumption
    | apply keeps_mret | apply keeps_liftO | apply keeps_get
    | apply keeps_get_dict | apply keeps_get_record
    | apply keeps_bind
    | match goal with
      | H : ∀ _, keeps _ _ |- _ => apply H
      | |- keeps _ (match ?x with _ => _ end) => destruct x
      end ].

(** Whatever is kept by a new dictionary and by an assignment to the
    record being formatted is kept by every step of [format] but the
    assignment to the template slot. *)
Section kept_by_format.
Context (R : relation World) `{!PreOrder R} (record : loc).
Hypothesis keeps_new_dict : ∀ d, keeps R (new_dict d).
Hypothesis keeps_set_record : ∀ f, keeps R (set_record record f).
Variable formatException : ExcInfo → string.
Variable formatStack : string → string.

Lemma keeps_format_args (args : loc) (level : string) :
  keeps R (format_args args level).
Proof. unfold format_args. repeat keeps_step. Qed.

Lemma keeps_getMessage : keeps R (getMessage record).
Proof. unfold getMessage, args_truthy, interpolate. repeat keeps_step. Qed.

Lemma keeps_formatMessage : keeps R (formatMessage record).
Proof. unfold formatMessage. repeat keeps_step. Qed.

Lemma keeps_colour_args : keeps R (CustomFormatter.colour_args record).
Proof.
  unfold CustomFormatter.colour_args, args_truthy.
  repeat first [apply keeps_format_args | keeps_step].
Qed.

Lemma keeps_render_exception :
  keeps R (CustomFormatter.render_exception formatException record).
Proof. unfold CustomFormatter.render_exception. repeat keeps_step. Qed.

Lemma keeps_append_exception (msg : string) :
  keeps R (CustomFormatter.append_exception record msg).
Proof. unfold CustomFormatter.append_exception. repeat keeps_step. Qed.

Lemma keeps_append_stack (msg : string) :
  keeps R (CustomFormatter.append_stack formatStack record msg).
Proof. unfold CustomFormatter.append_stack. repeat keeps_step. Qed.

Lemma keeps_format :
  (∀ f, keeps R (modify (with_style_fmt f))) →
  keeps R (CustomFormatter.format formatException formatStack record).
Proof.
  intros Hstyle. unfold CustomFormatter.format.
  repeat first
    [ apply keeps_colour_args | apply keeps_getMessage
    | apply keeps_render_exception | apply keeps_append_exception
    | apply keeps_append_stack | apply keeps_formatMessage
    | apply Hstyle | keeps_step ].
Qed.
End kept_by_format.

Lemma keeps_frame_format_args (record args : loc) (level : string) :
  keeps (frame record) (format_args args level).
Proof.
  apply keeps_format_args; [apply _ | apply keeps_frame_new_dict].
Qed.

Lemma keeps_frame_format (formatException : ExcInfo → string)
    (formatStack : string → string) (record : loc) :
  keeps (frame record)
    (CustomFormatter.format formatException formatStack record).
Proof.
  apply keeps_format;
    [ apply _ | apply keeps_frame_new_dict | apply keeps_frame_set_record
    | apply keeps_frame_style_fmt ].
Qed.

(** ** The status colour slot over a run of the program *)

Lemma log_registry (self : CustomAccessLogger.t) (request : BaseRequest)
    (response : StreamResponse) (time : float) (w : World) (c : FieldStyle) :
  registry w !! "status" = Some c →
  registry (fst (runM (CustomAccessLogger.log self request response time) w))
  = registry (classified (status response) c w).
Proof.
  intros Hc. unfold CustomAccessLogger.log, CustomAccessLogger.log_with.
  rewrite runM_bind, (inject_status_color_run _ _ _ Hc).
  rewrite runM_bind. cbn [runM liftO].
  destruct (py_round (time * 1000)%float); reflexivity.
Qed.

Lemma slot_after_classified (n : Z) :
  (if bool_decide (n ∈ STATUS_OK) then "green" else "red")
  = slot_after (Some n).
Proof.
  unfold slot_after. case_bool_decide as H; case_decide as H';
    rewrite elem_of_STATUS_OK in H; tauto.
Qed.

(** C6, as stated, fails: when the module has just been imported the slot
    holds the empty string, neither "green" nor "red", and a mapping with
    a "status" key cannot be formatted. *)
Lemma status_slot_initially_empty :
  status_color initial_world = Some ""
  ∧ ¬ (status_color initial_world = Some "green"
       ∨ status_color initial_world = Some "red")
  ∧ snd (runM (format_args 0 "INFO")
           (with_dicts [ ({[ "status" := VStr "200:OK" ]} : Dict) ]
              initial_world))
    = Raise AttributeError.
Proof.
  assert (H : status_color initial_world = Some "")
    by (vm_compute; reflexivity).
  split; [exact H |]. split.
  - rewrite H. intros [? | ?]; discriminate.
  - vm_compute. reflexivity.
Qed.

Section history.
Variable formatException : ExcInfo → string.
Variable formatStack : string → string.

(** C6, amended. The slot holds the empty string from the import of the
    module until the first status is classified, and from then on
    "green" or "red": at every moment of every run of calls to the
    classifier, the access logger, the argument formatter and the record
    formatter, it holds the colour of the status classified last. *)
Theorem status_slot_history (ops : list Op) :
  status_color (run formatException formatStack ops initial_world)
  = Some (slot_after (last_classified ops)).
Proof.
  induction ops as [| op ops IH] using rev_ind.
  - vm_compute. reflexivity.
  - unfold run, last_classified in *. rewrite !foldl_app. cbn [foldl].
    set (w := foldl (λ w op, exec formatException formatStack op w)
                initial_world ops) in *.
    set (last := foldl _ None ops) in *.
    assert (∃ c, registry w !! "status" = Some c) as [c Hc].
    { unfold status_color in IH.
      destruct (registry w !! "status") as [c|]; [by eexists | done]. }
    destruct op as [n | self request response time | args level | record];
      cbn [exec].
    + rewrite (inject_status_color_run _ _ _ Hc). cbn [fst].
      by rewrite status_color_classified, slot_after_classified.
    + unfold status_color. rewrite (log_registry _ _ _ _ _ _ Hc).
      fold (status_color (classified (status response) c w)).
      by rewrite status_color_classified, slot_after_classified.
    + destruct (keeps_frame_format_args 0 args level w) as [Hreg _].
      unfold status_color in *. by rewrite Hreg.
    + destruct (keeps_frame_format formatException formatStack record w)
        as [Hreg _].
      unfold status_color in *. by rewrite Hreg.
Qed.
End history.

(** ** The state the classifier and the formatter share *)

Section shared_state.
Variable formatException : ExcInfo → string.
Variable formatStack : string → string.

Lemma format_missing_record (record : loc) (w : World) :
  records w !! record = None →
  runM (CustomFormatter.format formatException formatStack record) w
  = (w, OutOfModel).
Proof.
  intros Hr. unfold CustomFormatter.format.
  rewrite runM_bind. unfold get_record at 1. cbn [runM]. by rewrite Hr.
Qed.

(** [format] leaves in the template slot the template of the level of
    the record, whether it returns or raises. *)
Lemma format_style_fmt (record : loc) (w : World) (r : LogRecord) :
  records w !! record = Some r →
  style_fmt (fst (runM (CustomFormatter.format formatException formatStack
                          record) w))
  = default CustomFormatter.default_fmt
      (CustomFormatter.LOG_LEVEL_FORMAT !! levelname r).
Proof.
  intros Hr. unfold CustomFormatter.format.
  rewrite runM_bind. unfold get_record at 1. cbn [runM]. rewrite Hr.
  rewrite runM_bind. cbn [runM modify].
  match goal with
  | |- style_fmt (fst (runM ?m ?w1)) = _ =>
      assert (Hk : keeps same_style m); [| exact (Hk w1)]
  end.
  repeat first
    [ apply keeps_colour_args | apply keeps_getMessage
    | apply keeps_render_exception | apply keeps_append_exception
    | apply keeps_append_stack | apply keeps_formatMessage
    | apply keeps_style_new_dict | apply keeps_style_set_record
    | keeps_step ].
Qed.
End shared_state.

(** C9, as stated, fails: formatting a record writes the template slot of
    the formatter object. When the module has been imported the slot holds
    the default of the logging library; after an INFO record has been
    formatted it holds the INFO template. *)
Lemma format_writes_template_slot :
  let r := {| name := "bot"; levelname := "INFO"; msg := "started";
              args := ANone; exc_info := None; exc_text := None;
              stack_info := None; message := None |} in
  let w := with_records [r] initial_world in
  let w' := fst (runM (CustomFormatter.format exc_value id 0) w) in
  style_fmt w = "%(message)s"
  ∧ style_fmt w'
    = AnsiColor.INFO +:+ CustomFormatter.default_fmt +:+ AnsiColor.RESET_ALL
  ∧ style_fmt w' ≠ style_fmt w.
Proof. vm_compute. repeat split. discriminate. Qed.

(** C9, amended. Classifying a status changes the colour of the "status"
    entry of the registry and nothing else: the style of that entry, the
    other entries, the key set, the dictionaries, the records, the
    template slot and the emitted records are as before. Formatting a
    record leaves the registry, the status colour included, the emitted
    records, the existing dictionaries and the other records as they
    were; it does write one slot of the formatter object, the template
    slot, which then holds the template of the level of the record. The
    codec constants and the level templates are constants of the
    embedding: no operation writes them. *)
Theorem shared_state_frame (formatException : ExcInfo → string)
    (formatStack : string → string) :
  (∀ (n : Z) (w : World),
     let w' := fst (runM (inject_status_color n) w) in
     dicts w' = dicts w ∧ records w' = records w
     ∧ style_fmt w' = style_fmt w ∧ emitted w' = emitted w
     ∧ dom (registry w') = dom (registry w)
     ∧ (∀ key, key ≠ "status" → registry w' !! key = registry w !! key)
     ∧ style <$> registry w' !! "status" = style <$> registry w !! "status")
  ∧ (∀ (record : loc) (w : World),
       let w' := fst (runM (CustomFormatter.format formatException
                              formatStack record) w) in
       registry w' = registry w ∧ emitted w' = emitted w
       ∧ dicts w `prefix_of` dicts w'
       ∧ (∀ l, l ≠ record → records w' !! l = records w !! l)
       ∧ (∀ r, records w !! record = Some r →
               style_fmt w'
               = default CustomFormatter.default_fmt
                   (CustomFormatter.LOG_LEVEL_FORMAT !! levelname r))
       ∧ (records w !! record = None → w' = w)).
Proof.
  split.
  - intros n w. cbv zeta. unfold inject_status_color. cbn [runM].
    destruct (registry w !! "status") as [c|] eqn:Hc; cbn [fst]; world_simpl.
    + repeat split; try done.
      * rewrite dom_insert_L. apply subseteq_union_1_L.
        apply singleton_subseteq_l. by apply elem_of_dom_2 in Hc.
      * intros key Hne. by rewrite lookup_insert_ne.
      * by rewrite lookup_insert_eq.
    + repeat split. by rewrite Hc.
  - intros record w. cbv zeta.
    destruct (keeps_frame_format formatException formatStack record w)
      as (Hreg & Hem & Hd & _ & Hother).
    split; [done |]. split; [done |]. split; [done |]. split; [done |].
    split.
    + intros r Hr. by apply format_style_fmt.
    + intros Hr. by rewrite format_missing_record.
Qed.

(** ** The record formatter, step by step *)

Lemma with_args_same (r : LogRecord) : with_args (args r) r = r.
Proof. by destruct r. Qed.

Lemma get_record_run (w : World) (record : loc) (r : LogRecord) :
  records w !! record = Some r → runM (get_record record) w = (w, Ok r).
Proof. intros Hr. unfold get_record. cbn [runM]. by rewrite Hr. Qed.

Lemma get_dict_run (w : World) (l : loc) (items : Dict) :
  dicts w !! l = Some items → runM (get_dict l) w = (w, Ok items).
Proof. intros Hl. unfold get_dict. cbn [runM]. by rewrite Hl. Qed.

Lemma getMessage_message_of (w : World) (record : loc) (r : LogRecord) :
  records w !! record = Some r →
  runM (getMessage record) w = (w, message_of w r).
Proof.
  intros Hr. unfold getMessage, message_of.
  rewrite runM_bind, (get_record_run _ _ _ Hr).
  unfold args_truthy, interpolate. destruct (args r) as [| vs | l].
  - reflexivity.
  - rewrite runM_bind. cbn [runM mret M_ret]. by case_bool_decide.
  - rewrite !runM_bind. unfold get_dict at 1. cbn [runM].
    destruct (dicts w !! l) as [items|] eqn:Hl; [| done].
    cbn [runM mret M_ret]. case_bool_decide; [| done].
    by rewrite runM_bind, (get_dict_run _ _ _ Hl).
Qed.

Section steps.
Variable formatException : ExcInfo → string.
Variable formatStack : string → string.

(** A record whose arguments are not a mapping, or are an empty one, is
    left as it is by the colouring step. *)
Lemma colour_args_skip (w : World) (record : loc) (r : LogRecord) :
  records w !! record = Some r →
  match args r with
  | AMap l => dicts w !! l = Some ∅
  | _ => True
  end →
  runM (CustomFormatter.colour_args record) w = (w, Ok tt).
Proof.
  intros Hr Ha. unfold CustomFormatter.colour_args.
  rewrite runM_bind, (get_record_run _ _ _ Hr).
  unfold args_truthy. destruct (args r) as [| vs | l].
  - reflexivity.
  - rewrite runM_bind. reflexivity.
  - rewrite !runM_bind, (get_dict_run _ _ _ Ha). cbn [runM mret M_ret].
    by rewrite bool_decide_eq_false_2 by (intros H; by apply H).
Qed.

(** A record whose arguments are a mapping that is not empty gets the
    coloured copy, unless the colouring raises. *)
Lemma colour_args_map (w : World) (record : loc) (r : LogRecord) (l : loc)
    (items : Dict) :
  records w !! record = Some r →
  args r = AMap l →
  dicts w !! l = Some items →
  items ≠ ∅ →
  runM (CustomFormatter.colour_args record) w
  = match format_items (registry w) (levelname r) items with
    | Ok formatted =>
        (with_records
           (alter (with_args (AMap (length (dicts w)))) record (records w))
           (with_dicts (dicts w ++ [formatted]) w), Ok tt)
    | Raise e => (w, Raise e)
    | OutOfModel => (w, OutOfModel)
    end.
Proof.
  intros Hr Ha Hl Hne. unfold CustomFormatter.colour_args.
  rewrite runM_bind, (get_record_run _ _ _ Hr).
  unfold args_truthy. rewrite Ha.
  rewrite !runM_bind, (get_dict_run _ _ _ Hl). cbn [runM mret M_ret].
  rewrite bool_decide_eq_true_2 by done.
  rewrite runM_bind, (format_args_run _ _ _ _ Hl).
  by destruct (format_items (registry w) (levelname r) items).
Qed.

Lemma append_exception_run (w : World) (record : loc) (r : LogRecord)
    (msg : string) :
  records w !! record = Some r →
  runM (CustomFormatter.append_exception record msg) w
  = (w, with_exception_text r msg).
Proof.
  intros Hr. unfold CustomFormatter.append_exception, with_exception_text.
  rewrite runM_bind, (get_record_run _ _ _ Hr).
  destruct (exc_text r) as [text|]; [| done].
  destruct (truthy (Some text)); [| done].
  rewrite runM_bind. cbn [runM liftO].
  by destruct (AnsiColor.getattr (levelname r)).
Qed.

Lemma append_stack_run (w : World) (record : loc) (r : LogRecord)
    (msg : string) :
  records w !! record = Some r →
  runM (CustomFormatter.append_stack formatStack record msg) w
  = (w, Ok (with_stack_text formatStack r msg)).
Proof.
  intros Hr. unfold CustomFormatter.append_stack, with_stack_text.
  rewrite runM_bind, (get_record_run _ _ _ Hr).
  destruct (stack_info r) as [stack|]; [| done].
  by destruct (truthy (Some stack)).
Qed.
End steps.

(** ** The [%] operator on the templates of the formatter *)

Lemma fmap_append_nil (o : outcome string) : String.append "" <$> o = o.
Proof. by destruct o. Qed.

Lemma fmap_append_cons (c : ascii) (a : string) (o : outcome string) :
  String c <$> (String.append a <$> o) = String.append (String c a) <$> o.
Proof. by destruct o. Qed.

Lemma percent_plain (d : option Dict) (pos : list Value) (pre s : string) :
  plain pre = true →
  percent d pos PText (pre +:+ s)
  = String.append pre <$> percent d pos PText s.
Proof.
  induction pre as [| c pre IH]; intros Hp.
  - change ("" +:+ s) with s. by rewrite fmap_append_nil.
  - cbn [plain] in Hp. apply andb_prop in Hp as [Hc Hp].
    apply negb_true_iff, bool_decide_eq_false in Hc.
    rewrite string_app_cons. cbn [percent].
    destruct (decide (c = "%"%char)); [done |].
    by rewrite IH, fmap_append_cons.
Qed.

Lemma percent_plain_end (d : option Dict) (s : string) :
  plain s = true → percent d [] PText s = Ok s.
Proof.
  intros Hp. rewrite <- (string_app_nil_r s) at 1.
  rewrite percent_plain by done. cbn. by rewrite string_app_nil_r.
Qed.

Lemma percent_key_acc (d : Dict) (acc key : string) (v : Value)
    (rest : string) :
  key_text key = true →
  d !! (acc +:+ key) = Some v →
  percent (Some d) [] (PKey acc) (key +:+ ")s" +:+ rest)
  = String.append (str v) <$> percent (Some d) [] PText rest.
Proof.
  revert acc. induction key as [| c key IH]; intros acc Hk Hv.
  - rewrite string_app_nil_r in Hv.
    change ("" +:+ ")s" +:+ rest) with (String ")" (String "s" rest)).
    cbn [percent]. destruct (decide (")"%char = ")"%char)); [| done].
    rewrite Hv. cbn [percent]. unfold convert.
    destruct (decide ("s"%char = "s"%char)); [| done]. reflexivity.
  - cbn [key_text] in Hk. apply andb_prop in Hk as [Hc Hk].
    apply andb_prop in Hc as [Hc1 Hc2].
    apply negb_true_iff, bool_decide_eq_false in Hc1.
    apply negb_true_iff, bool_decide_eq_false in Hc2.
    rewrite string_app_cons. cbn [percent].
    destruct (decide (c = ")"%char)); [done |].
    destruct (decide (c = "("%char)); [done |].
    apply IH; [done |].
    by rewrite string_app_assoc.
Qed.

(** A conversion [%(key)s] is replaced by [str] of the value at [key]. *)
Lemma percent_key (d : Dict) (key : string) (v : Value) (rest : string) :
  key_text key = true →
  d !! key = Some v →
  percent (Some d) [] PText ("%(" +:+ key +:+ ")s" +:+ rest)
  = String.append (str v) <$> percent (Some d) [] PText rest.
Proof.
  intros Hk Hv.
  change ("%(" +:+ key +:+ ")s" +:+ rest)
    with (String "%" (String "(" (key +:+ ")s" +:+ rest))).
  cbn [percent].
  destruct (decide ("%"%char = "%"%char)); [| done].
  destruct (decide ("("%char = "%"%char)); [done |].
  destruct (decide ("("%char = "("%char)); [| done].
  by apply percent_key_acc.
Qed.

(** The default template between two texts free of conversions. *)
Lemma percent_default_fmt (r : LogRecord) (m pre post : string) :
  message r = Some m →
  plain pre = true → plain post = true →
  percent (Some (record_dict r)) [] PText
    (pre +:+ CustomFormatter.default_fmt +:+ post)
  = Ok (pre +:+ "[" +:+ levelname r +:+ "] " +:+ m +:+ post).
Proof.
  intros Hm Hpre Hpost.
  assert (Hl : record_dict r !! "levelname" = Some (VStr (levelname r))).
  { unfold record_dict. rewrite Hm.
    rewrite lookup_insert_ne by done.
    rewrite lookup_insert_ne by done.
    by rewrite lookup_insert_eq. }
  assert (Hmsg : record_dict r !! "message" = Some (VStr m)).
  { unfold record_dict. rewrite Hm. by rewrite lookup_insert_eq. }
  rewrite percent_plain by done.
  change (CustomFormatter.default_fmt +:+ post)
    with ("[" +:+ "%(" +:+ "levelname" +:+ ")s"
          +:+ "] " +:+ "%(" +:+ "message" +:+ ")s" +:+ post).
  rewrite (percent_plain _ _ "[") by done.
  rewrite (percent_key _ "levelname" _ _ eq_refl Hl).
  rewrite (percent_plain _ _ "] ") by done.
  rewrite (percent_key _ "message" _ _ eq_refl Hmsg).
  rewrite (percent_plain_end _ post) by done.
  reflexivity.
Qed.

(** ** The record formatter as a whole *)

Lemma LOG_LEVEL_FORMAT_cases (levelname : string) :
  levelname = "DEBUG" ∨ levelname = "INFO" ∨ levelname = "WARNING"
  ∨ levelname = "ERROR" ∨ levelname = "CRITICAL"
  ∨ CustomFormatter.LOG_LEVEL_FORMAT !! levelname = None.
Proof.
  destruct (decide (levelname = "DEBUG")); [tauto |].
  destruct (decide (levelname = "INFO")); [tauto |].
  destruct (decide (levelname = "WARNING")); [tauto |].
  destruct (decide (levelname = "ERROR")); [tauto |].
  destruct (decide (levelname = "CRITICAL")); [tauto |].
  do 5 right. unfold CustomFormatter.LOG_LEVEL_FORMAT.
  rewrite !list_to_map_cons, list_to_map_nil.
  by rewrite !lookup_insert_ne, lookup_empty by done.
Qed.

Lemma template_parts_spec (levelname : string) :
  default CustomFormatter.default_fmt
    (CustomFormatter.LOG_LEVEL_FORMAT !! levelname)
  = (template_parts levelname).1 +:+ CustomFormatter.default_fmt
    +:+ (template_parts levelname).2
  ∧ plain (template_parts levelname).1 = true
  ∧ plain (template_parts levelname).2 = true.
Proof.
  unfold template_parts.
  destruct (LOG_LEVEL_FORMAT_cases levelname)
    as [-> | [-> | [-> | [-> | [-> | ->]]]]];
    vm_compute; done.
Qed.

Lemma store_same (record : loc) (r : LogRecord) (w : World) :
  records w !! record = Some r → store record r w = w.
Proof.
  intros Hr. unfold store. rewrite list_insert_id by done. by destruct w.
Qed.

Lemma alter_store (record : loc) (f : LogRecord → LogRecord) (r : LogRecord)
    (w : World) :
  records w !! record = Some r →
  with_records (alter f record (records w)) w = store record (f r) w.
Proof.
  intros Hr. unfold store. f_equal.
  apply list_eq. intros i. destruct (decide (i = record)) as [-> | Hne].
  - rewrite list_lookup_alter_eq, Hr.
    rewrite list_lookup_insert_eq; [done |]. by apply lookup_lt_Some in Hr.
  - by rewrite list_lookup_alter_ne, list_lookup_insert_ne.
Qed.

Lemma store_store (record : loc) (r r' : LogRecord) (w : World) :
  store record r' (store record r w) = store record r' w.
Proof. unfold store. world_simpl. by rewrite list_insert_insert_eq. Qed.

Lemma store_lookup (record : loc) (r r0 : LogRecord) (w : World) :
  records w !! record = Some r0 →
  records (store record r w) !! record = Some r.
Proof.
  intros Hr. unfold store. world_simpl.
  rewrite list_lookup_insert_eq; [done |]. by apply lookup_lt_Some in Hr.
Qed.

Section whole.
Variable formatException : ExcInfo → string.
Variable formatStack : string → string.

Lemma render_exception_store (w : World) (record : loc) (r : LogRecord) :
  records w !! record = Some r →
  runM (CustomFormatter.render_exception formatException record) w
  = (store record (rendered formatException r) w, Ok tt).
Proof.
  intros Hr. unfold CustomFormatter.render_exception, rendered, exception_text.
  rewrite runM_bind, (get_record_run _ _ _ Hr).
  destruct (exc_info r) as [ei|].
  - destruct (truthy (exc_text r)).
    + cbn [runM mret M_ret]. f_equal. symmetry.
      apply store_same. rewrite Hr. by destruct r.
    + unfold set_record, modify. cbn [runM]. f_equal.
      by apply alter_store.
  - cbn [runM mret M_ret]. f_equal. symmetry.
    apply store_same. rewrite Hr. by destruct r.
Qed.

Lemma format_finish (w w1 : World) (record : loc) (r r1 : LogRecord)
    (m : string) :
  records w !! record = Some r →
  runM (CustomFormatter.colour_args record)
    (with_style_fmt (default CustomFormatter.default_fmt
                       (CustomFormatter.LOG_LEVEL_FORMAT !! levelname r)) w)
  = (w1, Ok tt) →
  records w1 !! record = Some r1 →
  message_of w1 r1 = Ok m →
  runM (CustomFormatter.format formatException formatStack record) w
  = finish formatException formatStack w1 record r1 m.
Proof.
  intros Hr Hcol Hr1 Hm. unfold CustomFormatter.format.
  rewrite runM_bind, (get_record_run _ _ _ Hr).
  rewrite runM_bind. cbn [runM modify].
  rewrite runM_bind, Hcol.
  rewrite runM_bind, (getMessage_message_of _ _ _ Hr1), Hm.
  rewrite runM_bind, (render_exception_store _ _ _ Hr1).
  pose proof (store_lookup record (rendered formatException r1) r1 w1 Hr1)
    as Hr2.
  rewrite runM_bind, (append_exception_run _ _ _ _ Hr2).
  unfold finish.
  destruct (with_exception_text (rendered formatException r1) m)
    as [m' | e |]; [| done | done].
  rewrite runM_bind, (append_stack_run _ _ _ _ _ Hr2).
  rewrite runM_bind. unfold set_record, modify. cbn [runM].
  rewrite (alter_store _ _ _ _ Hr2), store_store.
  unfold formatMessage.
  erewrite runM_bind, get_record_run by (by eapply store_lookup).
  rewrite runM_bind. cbn [runM get liftO]. reflexivity.
Qed.

Lemma format_stops_at_colour (w w1 : World) (record : loc) (r : LogRecord)
    (e : PyError) :
  records w !! record = Some r →
  runM (CustomFormatter.colour_args record)
    (with_style_fmt (default CustomFormatter.default_fmt
                       (CustomFormatter.LOG_LEVEL_FORMAT !! levelname r)) w)
  = (w1, Raise e) →
  runM (CustomFormatter.format formatException formatStack record) w
  = (w1, Raise e).
Proof.
  intros Hr Hcol. unfold CustomFormatter.format.
  rewrite runM_bind, (get_record_run _ _ _ Hr).
  rewrite runM_bind. cbn [runM modify].
  by rewrite runM_bind, Hcol.
Qed.

Lemma format_stops_at_message (w w1 : World) (record : loc)
    (r r1 : LogRecord) (e : PyError) :
  records w !! record = Some r →
  runM (CustomFormatter.colour_args record)
    (with_style_fmt (default CustomFormatter.default_fmt
                       (CustomFormatter.LOG_LEVEL_FORMAT !! levelname r)) w)
  = (w1, Ok tt) →
  records w1 !! record = Some r1 →
  message_of w1 r1 = Raise e →
  runM (CustomFormatter.format formatException formatStack record) w
  = (w1, Raise e).
Proof.
  intros Hr Hcol Hr1 Hm. unfold CustomFormatter.format.
  rewrite runM_bind, (get_record_run _ _ _ Hr).
  rewrite runM_bind. cbn [runM modify].
  rewrite runM_bind, Hcol.
  by rewrite runM_bind, (getMessage_message_of _ _ _ Hr1), Hm.
Qed.
End whole.

(** The colouring step changes, of the record, its arguments only. *)
Lemma colour_args_record (w : World) (record : loc) (r : LogRecord) :
  records w !! record = Some r →
  ∃ a, records (fst (runM (CustomFormatter.colour_args record) w)) !! record
       = Some (with_args a r).
Proof.
  intros Hr.
  assert (Hsame : records w !! record = Some (with_args (args r) r))
    by (by rewrite with_args_same).
  destruct (args r) as [| vs | l] eqn:Ha.
  - exists ANone. by rewrite (colour_args_skip w record r Hr); [| rewrite Ha].
  - exists (ATuple vs).
    by rewrite (colour_args_skip w record r Hr); [| rewrite Ha].
  - destruct (dicts w !! l) as [items|] eqn:Hl.
    + destruct (decide (items = ∅)) as [-> | Hne].
      * exists (AMap l).
        by rewrite (colour_args_skip w record r Hr); [| rewrite Ha].
      * rewrite (colour_args_map w record r l items Hr Ha Hl Hne).
        destruct (format_items (registry w) (levelname r) items);
          [| by exists (AMap l) | by exists (AMap l)].
        eexists. cbn [fst]. world_simpl.
        by rewrite list_lookup_alter_eq, Hr.
    + exists (AMap l). unfold CustomFormatter.colour_args.
      rewrite runM_bind, (get_record_run _ _ _ Hr).
      unfold args_truthy. rewrite Ha.
      rewrite !runM_bind. unfold get_dict. cbn [runM]. by rewrite Hl.
Qed.

(** C8, as stated, fails: a record without exception and without stack
    makes [format] raise when colouring its arguments raises, as with a
    "status" argument before any status has been classified, and when
    interpolating its message raises, as with a template that names a key
    the arguments do not have. *)
Lemma format_without_payloads_may_raise :
  let r fmt :=
    {| name := "bot"; levelname := "INFO"; msg := fmt; args := AMap 0;
       exc_info := None; exc_text := None; stack_info := None;
       message := None |} in
  let run fmt (items : Dict) :=
    snd (runM (CustomFormatter.format exc_value id 0)
           (with_records [r fmt] (with_dicts [items] initial_world))) in
  run "answered %(status)s" {[ "status" := VStr "200:OK" ]}
  = Raise AttributeError
  ∧ run "%(user)s logged in" {[ "name" := VStr "ada" ]} = Raise KeyError.
Proof. vm_compute. split; reflexivity. Qed.

Section without_payloads.
Variable formatException : ExcInfo → string.
Variable formatStack : string → string.

Lemma falsy_text (t : option string) :
  truthy t = false → t = None ∨ t = Some "".
Proof. destruct t as [[| c s] |]; cbn; intros; try discriminate; eauto. Qed.

(** C8, amended. For a record that carries neither exception nor stack,
    [format] returns whenever colouring its arguments and interpolating
    its message return: the optional steps are skipped, the message is
    stored on the record, and the line is the template of the level
    filled with the level name and the message. A record without
    arguments is always formatted. [format] can raise for such a record
    only from the colouring or from the interpolation. *)
Theorem format_without_payloads (w : World) (record : loc) (r : LogRecord) :
  records w !! record = Some r →
  exc_info r = None →
  truthy (exc_text r) = false →
  truthy (stack_info r) = false →
  let template := default CustomFormatter.default_fmt
                    (CustomFormatter.LOG_LEVEL_FORMAT !! levelname r) in
  let line m := (template_parts (levelname r)).1 +:+ "[" +:+ levelname r
                +:+ "] " +:+ m +:+ (template_parts (levelname r)).2 in
  let result :=
    runM (CustomFormatter.format formatException formatStack record) w in
  (∀ w1 m,
     runM (base_message record) (with_style_fmt template w) = (w1, Ok m) →
     snd result = Ok (line m)
     ∧ message <$> records (fst result) !! record = Some (Some m))
  ∧ (args r = ANone → snd result = Ok (line (msg r)))
  ∧ (∀ e, snd result = Raise e →
          snd (runM (base_message record) (with_style_fmt template w))
          = Raise e).
Proof.
  intros Hr Hei Het Hst template line result.
  set (w0 := with_style_fmt template w).
  assert (Hr0 : records w0 !! record = Some r) by done.
  destruct (runM (CustomFormatter.colour_args record) w0)
    as [w1 oc] eqn:Hcol.
  destruct (colour_args_record w0 record r Hr0) as [a Hr1].
  rewrite Hcol in Hr1. cbn [fst] in Hr1.
  assert (Hstyle : style_fmt w1 = template).
  { pose proof (keeps_colour_args same_style record
                  keeps_style_new_dict (keeps_style_set_record record) w0)
      as Hk.
    rewrite Hcol in Hk. exact Hk. }
  assert (Hbase : runM (base_message record) w0
                  = match oc with
                    | Ok _ => (w1, message_of w1 (with_args a r))
                    | Raise e => (w1, Raise e)
                    | OutOfModel => (w1, OutOfModel)
                    end).
  { unfold base_message. rewrite runM_bind, Hcol.
    destruct oc; [| done | done].
    by rewrite (getMessage_message_of _ _ _ Hr1). }
  assert (Hfin : ∀ m, oc = Ok tt → message_of w1 (with_args a r) = Ok m →
            result = (store record (with_message (Some m) (with_args a r)) w1,
                      Ok (line m))).
  { intros m -> Hm. unfold result.
    rewrite (format_finish _ _ w w1 record r (with_args a r) m Hr Hcol Hr1 Hm).
    assert (Hrend : rendered formatException (with_args a r) = with_args a r).
    { unfold rendered, exception_text. cbn [exc_info exc_text with_args].
      rewrite Hei. by destruct r. }
    assert (Hexc : with_exception_text (with_args a r) m = Ok m).
    { unfold with_exception_text. cbn [exc_text with_args].
      by destruct (falsy_text _ Het) as [-> | ->]. }
    assert (Hstack : with_stack_text formatStack (with_args a r) m = m).
    { unfold with_stack_text. cbn [stack_info with_args].
      by destruct (falsy_text _ Hst) as [-> | ->]. }
    unfold finish. rewrite Hrend, Hexc, Hstack. f_equal.
    unfold final_line. rewrite Hstyle. unfold template.
    destruct (template_parts_spec (levelname r)) as (-> & Hp1 & Hp2).
    by rewrite (percent_default_fmt _ m). }
  split; [| split].
  - intros w1' m Hb. rewrite Hbase in Hb.
    destruct oc as [[] | e |]; try discriminate.
    inversion Hb; subst w1'.
    rewrite (Hfin m eq_refl) by done. cbn [fst snd]. split; [done |].
    by erewrite store_lookup.
  - intros Ha.
    assert (Hskip : runM (CustomFormatter.colour_args record) w0 = (w0, Ok tt)).
    { apply (colour_args_skip w0 record r Hr0). by rewrite Ha. }
    rewrite Hskip in Hcol. inversion Hcol; subst w1 oc.
    rewrite Hr0 in Hr1. inversion Hr1 as [Hra].
    rewrite (Hfin (msg r) eq_refl); [done |].
    rewrite <- Hra. unfold message_of. by rewrite Ha.
  - intros e He. rewrite Hbase. unfold result in He.
    destruct oc as [[] | e' |].
    + destruct (message_of w1 (with_args a r)) as [m | e' |] eqn:Hm.
      * unfold result in Hfin. rewrite (Hfin m eq_refl eq_refl) in He.
        discriminate.
      * rewrite (format_stops_at_message _ _ w w1 record r (with_args a r) e'
                   Hr Hcol Hr1 Hm) in He. exact He.
      * exfalso. revert He. unfold CustomFormatter.format.
        rewrite runM_bind, (get_record_run _ _ _ Hr).
        rewrite runM_bind. cbn [runM modify]. fold template. fold w0.
        rewrite runM_bind, Hcol.
        rewrite runM_bind, (getMessage_message_of _ _ _ Hr1), Hm.
        discriminate.
    + by rewrite (format_stops_at_colour _ _ w w1 record r e' Hr Hcol) in He.
    + exfalso. revert He. unfold CustomFormatter.format.
      rewrite runM_bind, (get_record_run _ _ _ Hr).
      rewrite runM_bind. cbn [runM modify]. fold template. fold w0.
      rewrite runM_bind, Hcol. discriminate.
Qed.
End without_payloads.

Lemma format_without_payloads_witness :
  snd (runM (CustomFormatter.format exc_value id 0)
         (with_records
            [ {| name := "bot"; levelname := "INFO"; msg := "started";
                 args := ANone; exc_info := None; exc_text := None;
                 stack_info := None; message := None |} ]
            initial_world))
  = Ok (AnsiColor.INFO +:+ "[INFO] started" +:+ AnsiColor.RESET_ALL).
Proof.
  destruct (format_without_payloads exc_value id
              (with_records
                 [ {| name := "bot"; levelname := "INFO"; msg := "started";
                      args := ANone; exc_info := None; exc_text := None;
                      stack_info := None; message := None |} ]
                 initial_world)
              0
              {| name := "bot"; levelname := "INFO"; msg := "started";
                 args := ANone; exc_info := None; exc_text := None;
                 stack_info := None; message := None |})
    as (_ & H & _); [reflexivity | reflexivity | reflexivity | reflexivity |].
  rewrite H by reflexivity. vm_compute. reflexivity.
Defined.

(** ** The exception text *)

Lemma last_char_NL (s : string) :
  last_char s = NL → ∃ body, s = body +:+ NL.
Proof.
  induction s as [| c s IH]; [discriminate |].
  destruct s as [| c' s'].
  - cbn. intros [= ->]. by exists "".
  - intros H. destruct IH as [body ->]; [exact H |].
    by exists (String c body).
Qed.

Lemma end_line_ends (m : string) :
  ∃ body, CustomFormatter.end_line m = body +:+ NL.
Proof.
  unfold CustomFormatter.end_line. case_decide as H.
  - by apply last_char_NL.
  - by exists m.
Qed.

Lemma final_line_template (r : LogRecord) (m : string) :
  message r = Some m →
  final_line (default CustomFormatter.default_fmt
                (CustomFormatter.LOG_LEVEL_FORMAT !! levelname r)) r
  = Ok ((template_parts (levelname r)).1 +:+ "[" +:+ levelname r +:+ "] "
        +:+ m +:+ (template_parts (levelname r)).2).
Proof.
  intros Hm. unfold final_line.
  destruct (template_parts_spec (levelname r)) as (-> & Hp1 & Hp2).
  by rewrite (percent_default_fmt _ m).
Qed.

(** What a run of [base_message] that returns has done. *)
Lemma base_message_inv (w0 w1 : World) (record : loc) (r : LogRecord)
    (m : string) :
  records w0 !! record = Some r →
  runM (base_message record) w0 = (w1, Ok m) →
  ∃ a,
    runM (CustomFormatter.colour_args record) w0 = (w1, Ok tt)
    ∧ records w1 !! record = Some (with_args a r)
    ∧ message_of w1 (with_args a r) = Ok m
    ∧ style_fmt w1 = style_fmt w0.
Proof.
  intros Hr Hb. unfold base_message in Hb. rewrite runM_bind in Hb.
  destruct (colour_args_record w0 record r Hr) as [a Hr1].
  pose proof (keeps_colour_args same_style record
                keeps_style_new_dict (keeps_style_set_record record) w0)
    as Hk.
  destruct (runM (CustomFormatter.colour_args record) w0)
    as [w1' [[] | e |]]; try discriminate.
  cbn [fst] in Hr1, Hk.
  rewrite (getMessage_message_of _ _ _ Hr1) in Hb.
  inversion Hb; subst w1'. exists a. by repeat split.
Qed.

(** C2, as stated, fails: the replacement runs over the whole message.
    A newline of the base message and the newline between the base
    message and the exception text get the colour code as well. *)
Lemma exception_recolours_whole_message :
  let base := "a" +:+ NL +:+ "b" in
  let r := {| name := "bot"; levelname := "ERROR"; msg := base;
              args := ANone; exc_info := None; exc_text := Some "E";
              stack_info := None; message := None |} in
  let w' := fst (runM (CustomFormatter.format exc_value id 0)
                   (with_records [r] initial_world)) in
  message <$> records w' !! 0
  = Some (Some ("a" +:+ NL +:+ AnsiColor.ERROR +:+ "b"
                +:+ NL +:+ AnsiColor.ERROR +:+ "E"))
  ∧ message_as_claimed AnsiColor.ERROR base "E" = "a" +:+ NL +:+ "b" +:+ NL +:+ "E"
  ∧ message <$> records w' !! 0
    ≠ Some (Some (message_as_claimed AnsiColor.ERROR base "E")).
Proof. vm_compute. repeat split. discriminate. Qed.

Section exception.
Variable formatException : ExcInfo → string.
Variable formatStack : string → string.

(** C2, amended. When rendered exception text exists, the formatter makes
    the base message end with a newline, appends the exception text, and
    replaces every newline of the whole of that text, those of the base
    message and the one before the exception text included, by a newline
    followed by the colour code of the level: the message is the base
    message so treated, whose last newline carries the colour code, then
    the exception text so treated. The stack text, when there is one,
    follows unchanged, and the line is the template of the level filled
    with that message. *)
Theorem exception_text_recoloured (w w1 : World) (record : loc)
    (r : LogRecord) (m text c : string) :
  records w !! record = Some r →
  runM (base_message record)
    (with_style_fmt (default CustomFormatter.default_fmt
                       (CustomFormatter.LOG_LEVEL_FORMAT !! levelname r)) w)
  = (w1, Ok m) →
  exception_text formatException r = Some text →
  text ≠ "" →
  AnsiColor.getattr (levelname r) = Ok c →
  let recolour := replace_newline (NL +:+ c) in
  let result :=
    runM (CustomFormatter.format formatException formatStack record) w in
  ∃ body composed,
    CustomFormatter.end_line m = body +:+ NL
    ∧ composed = (recolour body +:+ NL +:+ c) +:+ recolour text
    ∧ composed = recolour (CustomFormatter.end_line m +:+ text)
    ∧ message <$> records (fst result) !! record
      = Some (Some (with_stack_text formatStack r composed))
    ∧ exc_text <$> records (fst result) !! record = Some (Some text)
    ∧ snd result
      = Ok ((template_parts (levelname r)).1 +:+ "[" +:+ levelname r +:+ "] "
            +:+ with_stack_text formatStack r composed
            +:+ (template_parts (levelname r)).2).
Proof.
  intros Hr Hb Htext Hne Hc recolour result.
  destruct (base_message_inv (with_style_fmt _ w) _ _ _ _ Hr Hb)
    as (a & Hcol & Hr1 & Hm & Hstyle).
  destruct (end_line_ends m) as [body Hbody].
  exists body, (recolour (CustomFormatter.end_line m +:+ text)).
  split; [done |]. split.
  { rewrite Hbody. unfold recolour.
    rewrite !replace_newline_app. f_equal. f_equal.
    cbn. destruct (decide (newline = newline)); [| done].
    by rewrite string_app_nil_r. }
  split; [done |].
  unfold result.
  rewrite (format_finish _ _ w w1 record r (with_args a r) m Hr Hcol Hr1 Hm).
  unfold finish.
  assert (Hrend : rendered formatException (with_args a r)
                  = with_exc_text (Some text) (with_args a r)).
  { unfold rendered. f_equal. rewrite <- Htext. by destruct r. }
  rewrite Hrend.
  assert (Hexc : with_exception_text
                   (with_exc_text (Some text) (with_args a r)) m
                 = Ok (recolour (CustomFormatter.end_line m +:+ text))).
  { unfold with_exception_text.
    cbn [exc_text with_exc_text levelname with_args].
    destruct text as [| x text]; [done |]. cbn [truthy].
    rewrite Hc. reflexivity. }
  rewrite Hexc. cbn [fst snd].
  erewrite store_lookup by exact Hr1. cbn [fmap option_fmap option_map].
  split; [by destruct r |]. split; [done |].
  rewrite Hstyle. cbn [style_fmt with_style_fmt].
  match goal with
  | |- final_line _ (with_message (Some ?m3) ?r2) = _ =>
      pose proof (final_line_template (with_message (Some m3) r2) m3 eq_refl)
        as Hline
  end.
  cbn [levelname with_message with_exc_text with_args] in Hline.
  rewrite Hline. by destruct r.
Qed.
End exception.

Lemma exception_text_recoloured_witness :
  let ei := {| exc_type := "ValueError";
               exc_value := "Traceback" +:+ NL +:+ "ValueError: bad";
               exc_traceback := [] |} in
  let r := {| name := "bot"; levelname := "ERROR"; msg := "boom";
              args := ANone; exc_info := Some ei; exc_text := None;
              stack_info := None; message := None |} in
  snd (runM (CustomFormatter.format exc_value id 0)
         (with_records [r] initial_world))
  = Ok (AnsiColor.ERROR +:+ "[ERROR] boom" +:+ NL +:+ AnsiColor.ERROR
        +:+ "Traceback" +:+ NL +:+ AnsiColor.ERROR +:+ "ValueError: bad"
        +:+ AnsiColor.RESET_ALL).
Proof.
  cbv zeta.
  set (ei := {| exc_type := "ValueError";
                exc_value := "Traceback" +:+ NL +:+ "ValueError: bad";
                exc_traceback := [] |}).
  set (r := {| name := "bot"; levelname := "ERROR"; msg := "boom";
               args := ANone; exc_info := Some ei; exc_text := None;
               stack_info := None; message := None |}).
  destruct (exception_text_recoloured exc_value id
              (with_records [r] initial_world)
              (with_style_fmt
                 (AnsiColor.ERROR +:+ CustomFormatter.default_fmt
                  +:+ AnsiColor.RESET_ALL)
                 (with_records [r] initial_world))
              0 r "boom" ("Traceback" +:+ NL +:+ "ValueError: bad")
              AnsiColor.ERROR)
    as (body & composed & _ & _ & Hcomposed & _ & _ & Hout).
  - reflexivity.
  - vm_compute. reflexivity.
  - reflexivity.
  - discriminate.
  - vm_compute. reflexivity.
  - rewrite Hout, Hcomposed. vm_compute. reflexivity.
Defined.

(** ** An unrecognised level name *)

(** C3. A record of level 25, for which the logging library gives the
    level name "Level 25", that carries an exception: the plain default
    template is selected, and then [format] raises [AttributeError], from
    [getattr(AnsiColor, record.levelname)]. The same happens when the
    record carries arguments with a registered key, from [inject]. The
    same record without exception and without such arguments is formatted
    with the default template. *)
Theorem unknown_level_raises :
  let ei := {| exc_type := "ValueError"; exc_value := "ValueError: bad";
               exc_traceback := [] |} in
  let r a e := {| name := "bot"; levelname := "Level 25"; msg := "boom";
                  args := a; exc_info := e; exc_text := None;
                  stack_info := None; message := None |} in
  let run a e :=
    runM (CustomFormatter.format exc_value id 0)
      (with_records [r a e]
         (with_dicts [ ({[ "time" := VStr "3ms" ]} : Dict) ] initial_world)) in
  CustomFormatter.LOG_LEVEL_FORMAT !! "Level 25" = None
  ∧ style_fmt (fst (run ANone (Some ei))) = CustomFormatter.default_fmt
  ∧ snd (run ANone (Some ei)) = Raise AttributeError
  ∧ snd (run (AMap 0) None) = Raise AttributeError
  ∧ snd (run ANone None) = Ok "[Level 25] boom".
Proof. vm_compute. repeat split. Qed.

(** ** Formatting a record twice *)

Lemma inject_longer (text color style reset out : string) :
  AnsiColor.inject text color style reset = Ok out →
  String.length text < String.length out.
Proof.
  unfold AnsiColor.inject.
  destruct (AnsiColor.getattr_upper color) as [c | |]; try discriminate.
  destruct (AnsiColor.getattr_upper style) as [s | |]; try discriminate.
  destruct (AnsiColor.getattr_upper reset) as [r | |]; try discriminate.
  cbn [mbind outcome_bind]. intros [= <-].
  rewrite !string_length_app.
  change (String.length AnsiColor.RESET_ALL) with 4. lia.
Qed.

Lemma is_Ok_fmap {A B} (f : A → B) (o : outcome A) :
  is_Ok (f <$> o) ↔ is_Ok o.
Proof.
  destruct o as [a | e |]; split; intros [x Hx]; try discriminate;
    by eexists.
Qed.

Lemma convert_alike (c : ascii) (v v' : Value) :
  alike v v' → is_Ok (convert c v) → is_Ok (convert c v').
Proof.
  intros [-> | (s & s' & -> & ->)]; [done |].
  unfold convert. destruct (decide (c = "s"%char)); [by eexists |].
  destruct (decide (c = "d"%char)); intros [x Hx]; discriminate.
Qed.

(** Whether [%] returns depends on the mapping through its keys and the
    kind of its values only. *)
Lemma percent_alike (d d' : Dict) (s : string) :
  alike_dict d d' →
  ∀ pos m m',
    alike_mode m m' →
    is_Ok (percent (Some d) pos m s) → is_Ok (percent (Some d') pos m' s).
Proof.
  intros Hd. induction s as [| c s IH]; intros pos m m' Hm.
  - destruct m, m'; try done.
  - destruct m as [| | key | v], m' as [| | key' | v']; try done;
      cbn [percent].
    + destruct (decide (c = "%"%char)); [by apply IH |].
      rewrite !is_Ok_fmap. by apply IH.
    + destruct (decide (c = "%"%char)); [rewrite !is_Ok_fmap; by apply IH |].
      destruct (decide (c = "("%char)); [by apply IH |].
      intros [x Hx]; discriminate.
    + cbn in Hm. subst key'.
      destruct (decide (c = ")"%char)).
      * specialize (Hd key).
        destruct (d !! key) as [v |], (d' !! key) as [v' |]; try done.
        by apply IH.
      * destruct (decide (c = "("%char)); [done |]. by apply IH.
    + cbn in Hm. intros [x Hx].
      destruct (convert c v) as [t | |] eqn:Hc; try discriminate.
      destruct (convert_alike c v v' Hm) as [t' Hc']; [by eexists |].
      rewrite Hc'. cbn [mbind outcome_bind] in *.
      apply is_Ok_fmap. apply (IH pos PText PText I).
      apply (is_Ok_fmap (String.append t)). by eexists.
Qed.

Lemma inject_any_text (text text' color style reset : string) :
  is_Ok (AnsiColor.inject text color style reset) →
  is_Ok (AnsiColor.inject text' color style reset).
Proof.
  unfold AnsiColor.inject.
  destruct (AnsiColor.getattr_upper color) as [c | |];
    [| intros [x Hx]; discriminate ..].
  destruct (AnsiColor.getattr_upper style) as [s | |];
    [| intros [x Hx]; discriminate ..].
  destruct (AnsiColor.getattr_upper reset) as [r | |];
    [| intros [x Hx]; discriminate ..].
  intros _. by eexists.
Qed.

(** A value that [format_value] has returned is formatted as well, and
    into a value alike. *)
Lemma format_value_again reg level key value value' :
  format_value reg level key value = Ok value' →
  ∃ value'', format_value reg level key value' = Ok value''
             ∧ alike value' value''.
Proof.
  unfold format_value. destruct (reg !! key) as [c |].
  - intros H.
    destruct (AnsiColor.inject (str value) (color c)
                (default "normal" (style c)) level) as [once | |] eqn:Hone;
      try discriminate.
    destruct (inject_any_text (str value) (str value') (color c)
                (default "normal" (style c)) level) as [twice Htwo];
      [by eexists |].
    rewrite Htwo. inversion H; subst value'.
    eexists. split; [reflexivity |]. right. by eexists _, _.
  - intros [= ->]. eexists. split; [reflexivity |]. by left.
Qed.

(** The mapping [format_items] has returned is formatted as well, into a
    mapping alike. *)
Lemma format_items_again reg level (items formatted : Dict) :
  format_items reg level items = Ok formatted →
  ∃ formatted',
    format_items reg level formatted = Ok formatted'
    ∧ alike_dict formatted formatted'.
Proof.
  intros Hf.
  pose proof (format_items_invariant reg level items) as Hinv.
  rewrite Hf in Hinv. cbn [loop_invariant] in Hinv.
  assert (Hagain : ∀ key value',
            formatted !! key = Some value' →
            ∃ value'', format_value reg level key value' = Ok value''
                       ∧ alike value' value'').
  { intros key value' Hk. specialize (Hinv key).
    destruct (items !! key) as [value |]; [| congruence].
    destruct Hinv as (v & Hv & Hk'). rewrite Hk in Hk'. inversion Hk'; subst v.
    by apply (format_value_again _ _ _ value). }
  destruct (format_items_total reg level formatted) as [formatted' Hf'].
  { intros key value' Hk. destruct (Hagain key value' Hk) as (v & Hv & _).
    by eexists. }
  exists formatted'. split; [done |]. intros key.
  pose proof (format_items_invariant reg level formatted) as Hinv'.
  rewrite Hf' in Hinv'. cbn [loop_invariant] in Hinv'.
  specialize (Hinv' key).
  destruct (formatted !! key) as [value' |] eqn:Hk.
  - destruct Hinv' as (v & Hv & ->).
    destruct (Hagain key value' Hk) as (v' & Hv' & Hal). congruence.
  - by rewrite Hinv'.
Qed.

Lemma with_exception_text_cases (r : LogRecord) (base m' : string) :
  with_exception_text r base = Ok m' →
  match exc_text r with
  | Some (String x text) =>
      ∃ c, AnsiColor.getattr (levelname r) = Ok c
           ∧ m' = replace_newline (NL +:+ c)
                    (CustomFormatter.end_line base +:+ String x text)
  | _ => m' = base
  end.
Proof.
  unfold with_exception_text.
  destruct (exc_text r) as [[| x text] |]; cbn [truthy];
    [by intros [= <-] | | by intros [= <-]].
  destruct (AnsiColor.getattr (levelname r)) as [c | |]; try discriminate.
  cbn [mbind outcome_bind]. intros [= <-]. by exists c.
Qed.

Lemma with_exception_text_again (r r' : LogRecord) (base base' : string) :
  exc_text r' = exc_text r →
  levelname r' = levelname r →
  is_Ok (with_exception_text r base) → is_Ok (with_exception_text r' base').
Proof.
  unfold with_exception_text. intros -> ->.
  destruct (exc_text r) as [[| x text] |]; cbn [truthy];
    [intros _; by eexists | | intros _; by eexists].
  destruct (AnsiColor.getattr (levelname r)) as [c | |];
    [| intros [y Hy]; discriminate ..].
  intros _. by eexists.
Qed.

Lemma with_stack_text_cases (formatStack : string → string) (r : LogRecord)
    (m : string) :
  with_stack_text formatStack r m
  = match stack_info r with
    | Some (String x stack) =>
        CustomFormatter.end_line m +:+ formatStack (String x stack)
    | _ => m
    end.
Proof. unfold with_stack_text. by destruct (stack_info r) as [[| x stack] |]. Qed.

Lemma exception_text_again (formatException : ExcInfo → string)
    (r r' : LogRecord) :
  exc_info r' = exc_info r →
  exc_text r' = exception_text formatException r →
  exception_text formatException r' = exception_text formatException r.
Proof.
  unfold exception_text. intros -> ->.
  destruct (exc_info r) as [ei |]; [| done].
  destruct (truthy (exc_text r)) eqn:Ht.
  - by rewrite Ht.
  - by destruct (truthy (Some (formatException ei))).
Qed.

Section twice.
Variable formatException : ExcInfo → string.
Variable formatStack : string → string.

(** What a run of [format] that returns has done. *)
Lemma format_Ok_inv (w w' : World) (record : loc) (r : LogRecord)
    (out : string) :
  records w !! record = Some r →
  runM (CustomFormatter.format formatException formatStack record) w
  = (w', Ok out) →
  ∃ w1 a m,
    runM (CustomFormatter.colour_args record)
      (with_style_fmt (default CustomFormatter.default_fmt
                         (CustomFormatter.LOG_LEVEL_FORMAT !! levelname r)) w)
    = (w1, Ok tt)
    ∧ records w1 !! record = Some (with_args a r)
    ∧ message_of w1 (with_args a r) = Ok m
    ∧ finish formatException formatStack w1 record (with_args a r) m
      = (w', Ok out).
Proof.
  intros Hr Hrun.
  set (w0 := with_style_fmt _ w).
  assert (Hr0 : records w0 !! record = Some r) by done.
  destruct (colour_args_record w0 record r Hr0) as [a Hr1].
  destruct (runM (CustomFormatter.colour_args record) w0)
    as [w1 oc] eqn:Hcol.
  cbn [fst] in Hr1. pose proof Hrun as Hrun0.
  unfold CustomFormatter.format in Hrun.
  rewrite runM_bind, (get_record_run _ _ _ Hr) in Hrun.
  rewrite runM_bind in Hrun. cbn [runM modify] in Hrun. fold w0 in Hrun.
  rewrite runM_bind, Hcol in Hrun.
  destruct oc as [[] | e |]; try discriminate.
  rewrite runM_bind, (getMessage_message_of _ _ _ Hr1) in Hrun.
  destruct (message_of w1 (with_args a r)) as [m | e |] eqn:Hm;
    try discriminate.
  exists w1, a, m. split; [done |]. split; [done |]. split; [done |].
  by rewrite <- (format_finish formatException formatStack w w1 record r
                   (with_args a r) m Hr Hcol Hr1 Hm).
Qed.

(** A run of [format] that returns, on a record whose arguments are a
    mapping: the mapping is coloured into a new one, the template is
    interpolated with the new one, and the record is stored with the
    exception text and the message. *)
Lemma format_mapping_inv (w w' : World) (record : loc) (r : LogRecord)
    (l : loc) (items : Dict) (out : string) :
  records w !! record = Some r →
  args r = AMap l →
  dicts w !! l = Some items →
  items ≠ ∅ →
  runM (CustomFormatter.format formatException formatStack record) w
  = (w', Ok out) →
  ∃ formatted base m',
    format_items (registry w) (levelname r) items = Ok formatted
    ∧ percent (Some formatted) [] PText (msg r) = Ok base
    ∧ with_exception_text (rendered formatException r) base = Ok m'
    ∧ registry w' = registry w
    ∧ dicts w' = dicts w ++ [formatted]
    ∧ records w' !! record
      = Some (with_message (Some (with_stack_text formatStack r m'))
                (with_exc_text (exception_text formatException r)
                   (with_args (AMap (length (dicts w))) r))).
Proof.
  intros Hr Ha Hl Hne Hrun.
  destruct (format_Ok_inv w w' record r out Hr Hrun)
    as (w1 & a & m & Hcol & Hr1 & Hm & Hfin).
  rewrite (colour_args_map (with_style_fmt _ w) record r l items
             Hr Ha Hl Hne) in Hcol.
  cbn [registry dicts records with_style_fmt] in Hcol.
  destruct (format_items (registry w) (levelname r) items)
    as [formatted | e |] eqn:Hf; try discriminate.
  inversion Hcol; subst w1. clear Hcol.
  revert Hr1. world_simpl. rewrite list_lookup_alter_eq, Hr.
  intros [= Hra].
  assert (Hne' : formatted ≠ ∅).
  { intros ->. apply Hne. apply dom_empty_iff_L.
    rewrite <- (format_items_dom _ _ _ _ Hf). by rewrite dom_empty_L. }
  unfold message_of in Hm. rewrite <- Hra in Hm.
  cbn [args msg with_args] in Hm. revert Hm. world_simpl.
  rewrite lookup_app_r, Nat.sub_diag by lia. cbn [lookup list_lookup].
  rewrite bool_decide_eq_true_2 by done. intros Hm.
  unfold finish in Hfin.
  destruct (with_exception_text (rendered formatException (with_args a r)) m)
    as [m' | e |] eqn:He; try discriminate.
  inversion Hfin as [[Hw' Hline]].
  exists formatted, m, m'.
  split; [done |]. split; [done |].
  split; [rewrite <- He; by destruct r |].
  unfold store. world_simpl.
  split; [done |]. split; [done |].
  rewrite list_lookup_insert_eq
    by (rewrite length_alter; by apply lookup_lt_Some in Hr).
  rewrite <- Hra. by destruct r.
Qed.

(** The converse: when the mapping can be coloured, the template
    interpolated and the colour of the level found, [format] returns. *)
Lemma format_mapping_run (w : World) (record : loc) (r : LogRecord)
    (l : loc) (items formatted : Dict) (base m' : string) :
  records w !! record = Some r →
  args r = AMap l →
  dicts w !! l = Some items →
  items ≠ ∅ →
  format_items (registry w) (levelname r) items = Ok formatted →
  percent (Some formatted) [] PText (msg r) = Ok base →
  with_exception_text (rendered formatException r) base = Ok m' →
  ∃ w' out,
    runM (CustomFormatter.format formatException formatStack record) w
    = (w', Ok out).
Proof.
  intros Hr Ha Hl Hne Hf Hb He.
  assert (Hne' : formatted ≠ ∅).
  { intros ->. apply Hne. apply dom_empty_iff_L.
    rewrite <- (format_items_dom _ _ _ _ Hf). by rewrite dom_empty_L. }
  pose proof (colour_args_map
                (with_style_fmt
                   (default CustomFormatter.default_fmt
                      (CustomFormatter.LOG_LEVEL_FORMAT !! levelname r)) w)
                record r l items Hr Ha Hl Hne) as Hcol.
  cbn [registry dicts records with_style_fmt] in Hcol. rewrite Hf in Hcol.
  set (r1 := with_args (AMap (length (dicts w))) r).
  assert (Hr1 : records
                  (with_records
                     (alter (with_args (AMap (length (dicts w)))) record
                        (records w))
                     (with_dicts (dicts w ++ [formatted])
                        (with_style_fmt
                           (default CustomFormatter.default_fmt
                              (CustomFormatter.LOG_LEVEL_FORMAT
                                 !! levelname r)) w))) !! record
                = Some r1).
  { world_simpl. by rewrite list_lookup_alter_eq, Hr. }
  assert (Hm : message_of
                 (with_records
                    (alter (with_args (AMap (length (dicts w)))) record
                       (records w))
                    (with_dicts (dicts w ++ [formatted])
                       (with_style_fmt
                          (default CustomFormatter.default_fmt
                             (CustomFormatter.LOG_LEVEL_FORMAT
                                !! levelname r)) w))) r1
               = Ok base).
  { unfold message_of, r1. cbn [args msg with_args]. world_simpl.
    rewrite lookup_app_r, Nat.sub_diag by lia. cbn [lookup list_lookup].
    by rewrite bool_decide_eq_true_2. }
  rewrite (format_finish formatException formatStack w _ record r r1 base
             Hr Hcol Hr1 Hm).
  unfold finish.
  assert (He' : with_exception_text (rendered formatException r1) base
                = Ok m') by (rewrite <- He; by destruct r).
  rewrite He'. world_simpl.
  pose proof (final_line_template
                (with_message
                   (Some (with_stack_text formatStack
                            (rendered formatException r1) m'))
                   (rendered formatException r1)) _ eq_refl) as Hline.
  cbn [levelname with_message with_exc_text with_args rendered r1] in Hline.
  eexists _, _. f_equal. exact Hline.
Qed.

(** One run of [format] on a record whose arguments are a mapping. *)
Lemma format_mutation_step (w w' : World) (record : loc) (r : LogRecord)
    (l : loc) (items : Dict) (out : string) :
  records w !! record = Some r →
  args r = AMap l →
  dicts w !! l = Some items →
  items ≠ ∅ →
  runM (CustomFormatter.format formatException formatStack record) w
  = (w', Ok out) →
  ∃ formatted m,
    format_items (registry w) (levelname r) items = Ok formatted
    ∧ dicts w' = dicts w ++ [formatted]
    ∧ registry w' = registry w
    ∧ records w' !! record
      = Some (with_message (Some m)
                (with_exc_text (exception_text formatException r)
                   (with_args (AMap (length (dicts w))) r))).
Proof.
  intros Hr Ha Hl Hne Hrun.
  destruct (format_mapping_inv w w' record r l items out Hr Ha Hl Hne Hrun)
    as (formatted & base & m' & Hf & _ & _ & Hreg & Hd & Hr').
  by exists formatted, (with_stack_text formatStack r m').
Qed.

(** C10. A run of [format] that returns has changed the record, and
    nothing of it but three attributes. Its arguments are now another
    mapping, the coloured copy of the one it had, which itself is left as
    it was. The rendered exception text is kept on the record. Its
    message is the composed text: the template of the record interpolated
    with the coloured copy; then, when the record holds exception text,
    a newline unless there is one, the exception text, and the colour code
    of the level after every newline of the whole; then, when the record
    holds stack text, a newline unless there is one and the stack text. So
    a second run on the same record returns as well and colours the copy
    in its turn: the message is composed anew from the mapping coloured
    twice, in which every value with a registered key carries the colour
    codes twice and differs from the value after the first run. *)
Theorem format_mutates_record (w w' : World) (record : loc) (r : LogRecord)
    (l : loc) (items : Dict) (out : string) :
  records w !! record = Some r →
  args r = AMap l →
  dicts w !! l = Some items →
  items ≠ ∅ →
  runM (CustomFormatter.format formatException formatStack record) w
  = (w', Ok out) →
  let composed (mapping : Dict) (text : option string) (m : string) : Prop :=
    ∃ base m1,
      percent (Some mapping) [] PText (msg r) = Ok base
      ∧ match text with
        | Some (String x text) =>
            ∃ c, AnsiColor.getattr (levelname r) = Ok c
                 ∧ m1 = replace_newline (NL +:+ c)
                          (CustomFormatter.end_line base +:+ String x text)
        | _ => m1 = base
        end
      ∧ m = match stack_info r with
            | Some (String x stack) =>
                CustomFormatter.end_line m1 +:+ formatStack (String x stack)
            | _ => m1
            end in
  ∃ (formatted : Dict) (m : string) (r' : LogRecord),
    records w' !! record = Some r'
    ∧ format_items (registry w) (levelname r) items = Ok formatted
    ∧ dicts w' = dicts w ++ [formatted]
    ∧ args r' = AMap (length (dicts w))
    ∧ length (dicts w) ≠ l
    ∧ dicts w' !! l = Some items
    ∧ exc_text r' = exception_text formatException r
    ∧ message r' = Some m
    ∧ composed formatted (exc_text r') m
    ∧ r' = with_message (message r')
             (with_exc_text (exc_text r') (with_args (args r') r))
    ∧ ∃ (w'' : World) (out' : string) (formatted' : Dict) (m' : string)
        (r'' : LogRecord),
        runM (CustomFormatter.format formatException formatStack record) w'
        = (w'', Ok out')
        ∧ records w'' !! record = Some r''
        ∧ args r'' = AMap (length (dicts w'))
        ∧ dicts w'' = dicts w' ++ [formatted']
        ∧ exc_text r'' = exc_text r'
        ∧ message r'' = Some m'
        ∧ composed formatted' (exc_text r'') m'
        ∧ format_items (registry w) (levelname r) formatted = Ok formatted'
        ∧ ∀ key value c,
            items !! key = Some value → registry w !! key = Some c →
            let wrap text :=
              AnsiColor.inject text (color c) (default "normal" (style c))
                (levelname r) in
            ∃ once twice,
              wrap (str value) = Ok once ∧ wrap once = Ok twice
              ∧ formatted !! key = Some (VStr once)
              ∧ formatted' !! key = Some (VStr twice)
              ∧ twice ≠ once.
Proof.
  intros Hr Ha Hl Hne Hrun composed.
  destruct (format_mapping_inv w w' record r l items out Hr Ha Hl Hne Hrun)
    as (formatted & base & m1 & Hf & Hb & He & Hreg & Hd & Hr').
  set (r' := with_message (Some (with_stack_text formatStack r m1))
               (with_exc_text (exception_text formatException r)
                  (with_args (AMap (length (dicts w))) r))) in *.
  assert (Hcomposed : ∀ mapping b m (r0 : LogRecord),
            levelname r0 = levelname r →
            stack_info r0 = stack_info r →
            percent (Some mapping) [] PText (msg r) = Ok b →
            with_exception_text r0 b = Ok m →
            composed mapping (exc_text r0)
              (with_stack_text formatStack r0 m)).
  { intros mapping b m r0 Hlev Hst Hpb Hex. exists b, m.
    split; [done |]. split.
    - apply with_exception_text_cases in Hex. rewrite Hlev in Hex.
      exact Hex.
    - rewrite with_stack_text_cases. by rewrite Hst. }
  exists formatted, (with_stack_text formatStack r m1), r'.
  split; [exact Hr' |]. split; [done |]. split; [done |]. split; [done |].
  split; [apply lookup_lt_Some in Hl; lia |].
  split; [rewrite Hd; by apply lookup_app_l_Some |].
  split; [done |]. split; [done |].
  split.
  { exact (Hcomposed formatted base m1 (rendered formatException r)
             eq_refl eq_refl Hb He). }
  split; [done |].
  assert (Hl' : dicts w' !! length (dicts w) = Some formatted).
  { rewrite Hd. by rewrite lookup_app_r, Nat.sub_diag by lia. }
  assert (Hne' : formatted ≠ ∅).
  { intros ->. apply Hne. apply dom_empty_iff_L.
    rewrite <- (format_items_dom _ _ _ _ Hf). by rewrite dom_empty_L. }
  destruct (format_items_again _ _ _ _ Hf) as (formatted' & Hf' & Halike).
  destruct (percent_alike formatted formatted' (msg r) Halike [] PText PText I)
    as [base' Hb']; [by eexists |].
  assert (Htext : exception_text formatException r'
                  = exception_text formatException r).
  { by apply exception_text_again. }
  destruct (with_exception_text_again (rendered formatException r)
              (rendered formatException r') base base')
    as [m1' He'].
  { unfold rendered. cbn [exc_text with_exc_text]. exact Htext. }
  { reflexivity. }
  { by eexists. }
  assert (Hf2 : format_items (registry w') (levelname r') formatted
                = Ok formatted') by (by rewrite Hreg).
  destruct (format_mapping_run w' record r' (length (dicts w)) formatted
              formatted' base' m1' Hr' eq_refl Hl' Hne' Hf2 Hb' He')
    as (w'' & out' & Hrun').
  destruct (format_mapping_inv w' w'' record r' (length (dicts w)) formatted
              out' Hr' eq_refl Hl' Hne' Hrun')
    as (formatted2 & base2 & m2 & Hf2' & Hb2 & He2 & Hreg2 & Hd2 & Hr'').
  rewrite Hf2 in Hf2'. inversion Hf2'; subst formatted2. clear Hf2'.
  change (msg r') with (msg r) in Hb2.
  exists w'', out', formatted', (with_stack_text formatStack r' m2).
  eexists. split; [exact Hrun' |]. split; [exact Hr'' |].
  split; [done |]. split; [done |].
  split; [cbn [exc_text with_message with_exc_text]; exact Htext |].
  split; [done |].
  split.
  { cbn [exc_text with_message with_exc_text].
    exact (Hcomposed formatted' base2 m2 (rendered formatException r')
             eq_refl eq_refl Hb2 He2). }
  split; [done |].
  intros key value c Hk Hc wrap.
  destruct (format_items_lookup _ _ _ _ _ _ Hf Hk) as (v1 & Hv1 & Hk1).
  destruct (format_items_lookup _ _ _ _ _ _ Hf' Hk1) as (v2 & Hv2 & Hk2).
  unfold format_value in Hv1, Hv2. rewrite Hc in Hv1, Hv2.
  fold (wrap (str value)) in Hv1. fold (wrap (str v1)) in Hv2.
  destruct (wrap (str value)) as [once | |] eqn:Hone; try discriminate.
  cbn in Hv1. inversion Hv1; subst v1. cbn [str] in Hv2, Hone.
  destruct (wrap once) as [twice | |] eqn:Htwo; try discriminate.
  cbn in Hv2. inversion Hv2; subst v2.
  exists once, twice. repeat split; try done.
  intros ->. apply inject_longer in Htwo. lia.
Qed.
End twice.

Lemma format_mutates_record_witness :
  let r := {| name := "bot"; levelname := "INFO"; msg := "took %(time)s";
              args := AMap 0; exc_info := None; exc_text := Some "boom";
              stack_info := None; message := None |} in
  let w := with_records [r]
             (with_dicts [ ({[ "time" := VStr "3ms" ]} : Dict) ]
                initial_world) in
  let w' := fst (runM (CustomFormatter.format exc_value id 0) w) in
  ∃ (formatted : Dict) (m : string) (r' : LogRecord),
    records w' !! 0 = Some r'
    ∧ args r' = AMap 1
    ∧ dicts w' = dicts w ++ [formatted]
    ∧ dicts w' !! 0 = Some ({[ "time" := VStr "3ms" ]} : Dict)
    ∧ message r' = Some m
    ∧ m = "took " +:+ AnsiColor.RESET_ALL +:+ AnsiColor.YELLOW
          +:+ AnsiColor.NORMAL +:+ "3ms" +:+ AnsiColor.RESET_ALL
          +:+ AnsiColor.INFO +:+ NL +:+ AnsiColor.INFO +:+ "boom".
Proof.
  cbv zeta.
  set (r := {| name := "bot"; levelname := "INFO"; msg := "took %(time)s";
               args := AMap 0; exc_info := None; exc_text := Some "boom";
               stack_info := None; message := None |}).
  set (w := with_records [r]
              (with_dicts [ ({[ "time" := VStr "3ms" ]} : Dict) ]
                 initial_world)).
  destruct (format_mutates_record exc_value id w
              (fst (runM (CustomFormatter.format exc_value id 0) w))
              0 r 0 {[ "time" := VStr "3ms" ]}
              (AnsiColor.INFO +:+ "[INFO] took "
               +:+ AnsiColor.RESET_ALL +:+ AnsiColor.YELLOW
               +:+ AnsiColor.NORMAL +:+ "3ms" +:+ AnsiColor.RESET_ALL
               +:+ AnsiColor.INFO +:+ NL +:+ AnsiColor.INFO +:+ "boom"
               +:+ AnsiColor.RESET_ALL))
    as (formatted & m & r' & Hr' & Hf & Hd & Ha & _ & Hl & Ht & Hm
        & (base & m1 & Hb & Hex & Hstack) & _).
  - reflexivity.
  - reflexivity.
  - reflexivity.
  - intros H. apply (f_equal (λ d : Dict, d !! "time")) in H.
    rewrite lookup_singleton_eq, lookup_empty in H. discriminate.
  - vm_compute. reflexivity.
  - exists formatted, m, r'. repeat split; try assumption.
    rewrite Ht in Hex. cbn [exception_text exc_info exc_text r] in Hex.
    destruct Hex as (c & Hc & Hm1). cbn [stack_info r] in Hstack.
    vm_compute in Hf. inversion Hf; subst formatted. clear Hf.
    vm_compute in Hb. inversion Hb; subst base. clear Hb.
    vm_compute in Hc. inversion Hc; subst c. clear Hc.
    subst m m1. vm_compute. reflexivity.
Defined.

(** * Further properties of the module *)

(** ** Colour codes *)







(** ** The status classifier *)

Lemma inject_status_color_missing (n : Z) (w : World) :
  registry w !! "status" = None →
  runM (inject_status_color n) w = (w, Raise KeyError).
Proof. intros Hc. unfold inject_status_color. cbn [runM]. by rewrite Hc. Qed.

Lemma classified_lookup (n : Z) (c : FieldStyle) (w : World) :
  registry (classified n c w) !! "status"
  = Some {| color := if bool_decide (n ∈ STATUS_OK) then "green" else "red";
            style := style c |}.
Proof. unfold classified. world_simpl. by rewrite lookup_insert_eq. Qed.

Lemma classified_classified (a b : Z) (c c' : FieldStyle) (w : World) :
  style c' = style c →
  classified b c' (classified a c w) = classified b c w.
Proof.
  intros Hs. unfold classified. world_simpl.
  by rewrite insert_insert_eq, Hs.
Qed.

(** X3. Only the status classified last counts: classifying [b] after
    [a] leaves the state that classifying [b] alone leaves, and two
    statuses of the same class, both among 200, 201 and 204 or both
    outside, leave the same state. Without a "status" entry in the
    registry the classifier raises [KeyError] and changes nothing. *)
Theorem classification_overwrites (a b : Z) (w : World) :
  runM (inject_status_color b) (fst (runM (inject_status_color a) w))
  = runM (inject_status_color b) w
  ∧ ((a ∈ STATUS_OK ↔ b ∈ STATUS_OK) →
     runM (inject_status_color a) w = runM (inject_status_color b) w)
  ∧ (registry w !! "status" = None →
     runM (inject_status_color a) w = (w, Raise KeyError)).
Proof.
  destruct (registry w !! "status") as [c |] eqn:Hc.
  - rewrite !(inject_status_color_run _ w c Hc). cbn [fst].
    rewrite (inject_status_color_run b (classified a c w) _
               (classified_lookup a c w)).
    split; [| split].
    + by rewrite classified_classified.
    + intros Hab. f_equal. unfold classified.
      do 2 case_bool_decide; try reflexivity; tauto.
    + discriminate.
  - rewrite !(inject_status_color_missing _ w Hc). cbn [fst].
    rewrite ?(inject_status_color_missing _ w Hc). by repeat split.
Qed.

(** ** The access logger on a time that is not a number *)

(** X4. When the elapsed time times 1000 is a NaN or an infinity, [log]
    raises [ValueError], respectively [OverflowError], from [round]: no
    record reaches the logger and no object is created, but the status
    colour slot has already been written. *)
Theorem log_non_finite_time (self : CustomAccessLogger.t)
    (request : BaseRequest) (response : StreamResponse) (time : float)
    (w : World) :
  is_Some (registry w !! "status") →
  is_finite (time * 1000)%float = false →
  let result := runM (CustomAccessLogger.log self request response time) w in
  (snd result = Raise ValueError ∨ snd result = Raise OverflowError)
  ∧ emitted (fst result) = emitted w
  ∧ records (fst result) = records w
  ∧ dicts (fst result) = dicts w
  ∧ style_fmt (fst result) = style_fmt w
  ∧ status_color (fst result)
    = Some (if bool_decide (status response ∈ STATUS_OK)
            then "green" else "red").
Proof.
  intros [c Hc] Hinf result.
  unfold result, CustomAccessLogger.log, CustomAccessLogger.log_with.
  rewrite runM_bind, (inject_status_color_run _ _ _ Hc).
  rewrite runM_bind. cbn [runM liftO].
  unfold is_finite in Hinf. unfold py_round.
  destruct (Prim2SF (time * 1000)%float); try discriminate; cbn [fst snd].
  - split; [by right |]. repeat split. apply status_color_classified.
  - split; [by left |]. repeat split. apply status_color_classified.
Qed.

Lemma log_non_finite_time_witness :
  snd (runM (CustomAccessLogger.log
               {| CustomAccessLogger.logger_name := "bot";
                  CustomAccessLogger.log_format := CustomAccessLogger.LOG_FORMAT |}
               {| method := "GET"; path_qs := "/"; scheme := "http";
                  version := {| major := 1; minor := 1 |} |}
               {| status := 200; reason := "OK" |} infinity)
         initial_world)
  = Raise OverflowError.
Proof.
  destruct (log_non_finite_time
              {| CustomAccessLogger.logger_name := "bot";
                 CustomAccessLogger.log_format := CustomAccessLogger.LOG_FORMAT |}
              {| method := "GET"; path_qs := "/"; scheme := "http";
                 version := {| major := 1; minor := 1 |} |}
              {| status := 200; reason := "OK" |} infinity initial_world)
    as [[H | H] _].
  - eexists. vm_compute. reflexivity.
  - vm_compute. reflexivity.
  - vm_compute in H. discriminate.
  - exact H.
Defined.

(** ** The registry over a run of the program *)

Lemma classified_registry (n : Z) (c : FieldStyle) (w : World) :
  registry w !! "status" = Some c →
  dom (registry (classified n c w)) = dom (registry w)
  ∧ (∀ key, key ≠ "status" →
            registry (classified n c w) !! key = registry w !! key)
  ∧ style <$> registry (classified n c w) !! "status"
    = style <$> registry w !! "status".
Proof.
  intros Hc. unfold classified. world_simpl. split; [| split].
  - rewrite dom_insert_L. apply subseteq_union_1_L.
    apply singleton_subseteq_l. by apply elem_of_dom_2 in Hc.
  - intros key Hne. by rewrite lookup_insert_ne.
  - by rewrite lookup_insert_eq, Hc.
Qed.

Lemma log_registry_missing (self : CustomAccessLogger.t)
    (request : BaseRequest) (response : StreamResponse) (time : float)
    (w : World) :
  registry w !! "status" = None →
  runM (CustomAccessLogger.log self request response time) w
  = (w, Raise KeyError).
Proof.
  intros Hc. unfold CustomAccessLogger.log, CustomAccessLogger.log_with.
  by rewrite runM_bind, (inject_status_color_missing _ _ Hc).
Qed.

(** What a call changes of the registry: the colour of the "status"
    entry at most. *)
Lemma exec_registry (formatException : ExcInfo → string)
    (formatStack : string → string) (op : Op) (w : World) :
  let w' := exec formatException formatStack op w in
  dom (registry w') = dom (registry w)
  ∧ (∀ key, key ≠ "status" → registry w' !! key = registry w !! key)
  ∧ style <$> registry w' !! "status" = style <$> registry w !! "status".
Proof.
  destruct op as [n | self request response time | args level | record];
    cbn [exec].
  - destruct (registry w !! "status") as [c |] eqn:Hc.
    + rewrite (inject_status_color_run _ _ _ Hc). cbn [fst].
      rewrite <- Hc. by apply classified_registry.
    + rewrite (inject_status_color_missing _ _ Hc). cbn [fst].
      by rewrite Hc.
  - destruct (registry w !! "status") as [c |] eqn:Hc.
    + rewrite (log_registry _ _ _ _ _ _ Hc).
      rewrite <- Hc. by apply classified_registry.
    + rewrite (log_registry_missing _ _ _ _ _ Hc). cbn [fst].
      by rewrite Hc.
  - destruct (keeps_frame_format_args 0 args level w) as [-> _].
    by repeat split.
  - destruct (keeps_frame_format formatException formatStack record w)
      as [-> _].
    by repeat split.
Qed.

(** X5. Over every run of calls to the classifier, the access logger, the
    argument formatter and the record formatter, the registry keeps the
    key set it was created with, the entry of every key but "status" is
    the one it was created with, and the "status" entry keeps its style,
    bold: only the colour of that entry ever changes. *)
Theorem registry_fixed (formatException : ExcInfo → string)
    (formatStack : string → string) (ops : list Op) :
  let w := run formatException formatStack ops initial_world in
  dom (registry w) = dom MSG_ARGS_FORMAT
  ∧ (∀ key, key ≠ "status" → registry w !! key = MSG_ARGS_FORMAT !! key)
  ∧ style <$> registry w !! "status" = Some (Some "bold").
Proof.
  induction ops as [| op ops IH] using rev_ind.
  - cbn. repeat split. 
  - unfold run in *. rewrite foldl_app. cbn [foldl].
    set (w := foldl _ initial_world ops) in *.
    destruct IH as (Hdom & Hother & Hstyle).
    destruct (exec_registry formatException formatStack op w)
      as (Hdom' & Hother' & Hstyle').
    cbv zeta. split; [congruence |]. split; [| congruence].
    intros key Hne. by rewrite Hother', Hother.
Qed.

(** ** The message of an access log record *)

Lemma log_args_lookup (self : CustomAccessLogger.t) (request : BaseRequest)
    (response : StreamResponse) (ms : Z) :
  let items := log_args self request response ms in
  items !! "logger" = Some (VStr (CustomAccessLogger.logger_name self))
  ∧ items !! "method" = Some (VStr (method request))
  ∧ items !! "path" = Some (VStr (path_qs request))
  ∧ items !! "version"
    = Some (VStr (upper (scheme request) +:+ "/"
                  +:+ str_int (major (version request)) +:+ "."
                  +:+ str_int (minor (version request))))
  ∧ items !! "status"
    = Some (VStr (str_int (status response) +:+ ":" +:+ reason response))
  ∧ items !! "time" = Some (VStr (str_int ms +:+ "ms")).
Proof.
  cbv zeta. unfold log_args. rewrite !list_to_map_cons, list_to_map_nil.
  repeat split;
    repeat (rewrite lookup_insert_ne by done); by rewrite lookup_insert_eq.
Qed.

(** X6. Whatever the request and the response, with the template
    [LOG_FORMAT] the message of the record that [log] hands to the logger
    is the logger name, then, between double quotes, the method, the path
    with its query and the upper-cased scheme, a slash and the version,
    then [=>], the status code, a colon and the reason, and the rounded
    milliseconds followed by [ms]. The texts are taken as they are: a
    percent sign or a parenthesis in the path or in the reason is not read
    as a conversion. *)
Theorem access_log_message (self : CustomAccessLogger.t)
    (request : BaseRequest) (response : StreamResponse) (time : float)
    (w : World) :
  is_Some (registry w !! "status") →
  is_finite (time * 1000)%float = true →
  CustomAccessLogger.log_format self = CustomAccessLogger.LOG_FORMAT →
  ∃ ms,
    py_round (time * 1000)%float = Ok ms
    ∧ snd (runM (getMessage (length (records w)))
             (fst (runM (CustomAccessLogger.log self request response time)
                     w)))
      = Ok (CustomAccessLogger.logger_name self +:+ " " +:+ dquote
            +:+ method request +:+ " " +:+ path_qs request +:+ " "
            +:+ upper (scheme request) +:+ "/"
            +:+ str_int (major (version request)) +:+ "."
            +:+ str_int (minor (version request)) +:+ dquote +:+ " => "
            +:+ str_int (status response) +:+ ":" +:+ reason response
            +:+ " " +:+ str_int ms +:+ "ms").
Proof.
  intros [c Hc] Hfin Hfmt.
  destruct (py_round_finite _ Hfin) as [ms Hms].
  exists ms. split; [done |].
  rewrite (log_run self request response time w c ms Hc Hms), logger_call_run.
  cbn [fst].
  erewrite getMessage_run; cycle 1.
  - unfold classified. world_simpl.
    by rewrite lookup_app_r, Nat.sub_diag by lia.
  - reflexivity.
  - unfold classified. world_simpl.
    by rewrite lookup_app_r, Nat.sub_diag by lia.
  - apply log_args_nonempty.
  - cbn [snd msg]. rewrite Hfmt.
    destruct (log_args_lookup self request response ms)
      as (H1 & H2 & H3 & H4 & H5 & H6).
    change CustomAccessLogger.LOG_FORMAT
      with ("%(" +:+ "logger" +:+ ")s" +:+ (" " +:+ dquote)
            +:+ "%(" +:+ "method" +:+ ")s" +:+ " "
            +:+ "%(" +:+ "path" +:+ ")s" +:+ " "
            +:+ "%(" +:+ "version" +:+ ")s" +:+ (dquote +:+ " => ")
            +:+ "%(" +:+ "status" +:+ ")s" +:+ " "
            +:+ "%(" +:+ "time" +:+ ")s" +:+ "").
    rewrite (percent_key _ "logger" _ _ eq_refl H1).
    rewrite (percent_plain _ _ (" " +:+ dquote)) by done.
    rewrite (percent_key _ "method" _ _ eq_refl H2).
    rewrite (percent_plain _ _ " ") by done.
    rewrite (percent_key _ "path" _ _ eq_refl H3).
    rewrite (percent_plain _ _ " ") by done.
    rewrite (percent_key _ "version" _ _ eq_refl H4).
    rewrite (percent_plain _ _ (dquote +:+ " => ")) by done.
    rewrite (percent_key _ "status" _ _ eq_refl H5).
    rewrite (percent_plain _ _ " ") by done.
    rewrite (percent_key _ "time" _ _ eq_refl H6).
    cbn [percent fmap outcome_fmap str].
    rewrite !string_app_assoc. reflexivity.
Qed.

Lemma access_log_message_witness :
  snd (runM (getMessage 0)
         (fst (runM (CustomAccessLogger.log
                       {| CustomAccessLogger.logger_name := "bot";
                          CustomAccessLogger.log_format :=
                            CustomAccessLogger.LOG_FORMAT |}
                       {| method := "PUT"; path_qs := "/a%(b)s";
                          scheme := "https";
                          version := {| major := 2; minor := 0 |} |}
                       {| status := 404; reason := "Not Found" |} 0.5%float)
                initial_world)))
  = Ok ("bot " +:+ dquote +:+ "PUT /a%(b)s HTTPS/2.0" +:+ dquote
        +:+ " => 404:Not Found 500ms").
Proof.
  destruct (access_log_message
              {| CustomAccessLogger.logger_name := "bot";
                 CustomAccessLogger.log_format :=
                   CustomAccessLogger.LOG_FORMAT |}
              {| method := "PUT"; path_qs := "/a%(b)s"; scheme := "https";
                 version := {| major := 2; minor := 0 |} |}
              {| status := 404; reason := "Not Found" |} 0.5%float
              initial_world)
    as (ms & Hms & H).
  - eexists. vm_compute. reflexivity.
  - vm_compute. reflexivity.
  - reflexivity.
  - etrans; [exact H |].
    vm_compute in Hms. inversion Hms; subst ms.
    vm_compute. reflexivity.
Defined.

(** ** The record formatter, case by case *)

Section cases.
Variable formatException : ExcInfo → string.
Variable formatStack : string → string.

(** Every way [format] can go, from the colouring of the arguments on. *)
Lemma format_run_cases (w : World) (record : loc) (r : LogRecord) :
  records w !! record = Some r →
  runM (CustomFormatter.format formatException formatStack record) w
  = match runM (CustomFormatter.colour_args record)
            (with_style_fmt
               (default CustomFormatter.default_fmt
                  (CustomFormatter.LOG_LEVEL_FORMAT !! levelname r)) w) with
    | (w1, Ok _) =>
        match records w1 !! record with
        | Some r1 =>
            match message_of w1 r1 with
            | Ok m => finish formatException formatStack w1 record r1 m
            | Raise e => (w1, Raise e)
            | OutOfModel => (w1, OutOfModel)
            end
        | None => (w1, OutOfModel)
        end
    | (w1, Raise e) => (w1, Raise e)
    | (w1, OutOfModel) => (w1, OutOfModel)
    end.
Proof.
  intros Hr.
  set (w0 := with_style_fmt _ w).
  assert (Hr0 : records w0 !! record = Some r) by done.
  destruct (colour_args_record w0 record r Hr0) as [a Hr1].
  destruct (runM (CustomFormatter.colour_args record) w0)
    as [w1 oc] eqn:Hcol.
  cbn [fst] in Hr1. rewrite Hr1.
  destruct oc as [[] | e |].
  - destruct (message_of w1 (with_args a r)) as [m | e |] eqn:Hm.
    + exact (format_finish _ _ w w1 record r (with_args a r) m
               Hr Hcol Hr1 Hm).
    + exact (format_stops_at_message _ _ w w1 record r (with_args a r) e
               Hr Hcol Hr1 Hm).
    + unfold CustomFormatter.format.
      rewrite runM_bind, (get_record_run _ _ _ Hr).
      rewrite runM_bind. cbn [runM modify]. fold w0.
      rewrite runM_bind, Hcol.
      by rewrite runM_bind, (getMessage_message_of _ _ _ Hr1), Hm.
  - exact (format_stops_at_colour _ _ w w1 record r e Hr Hcol).
  - unfold CustomFormatter.format.
    rewrite runM_bind, (get_record_run _ _ _ Hr).
    rewrite runM_bind. cbn [runM modify]. fold w0.
    by rewrite runM_bind, Hcol.
Qed.

(** A run of [format] whose base message is [m] and whose exception block
    gives [m'] returns the line of the level, and leaves on the record the
    exception text and the message. *)
Lemma format_returns (w w1 : World) (record : loc) (r : LogRecord)
    (m m' : string) :
  records w !! record = Some r →
  runM (base_message record)
    (with_style_fmt (default CustomFormatter.default_fmt
                       (CustomFormatter.LOG_LEVEL_FORMAT !! levelname r)) w)
  = (w1, Ok m) →
  with_exception_text (rendered formatException r) m = Ok m' →
  ∃ a,
    records w1 !! record = Some (with_args a r)
    ∧ runM (CustomFormatter.format formatException formatStack record) w
      = (store record
           (with_message (Some (with_stack_text formatStack r m'))
              (rendered formatException (with_args a r))) w1,
         Ok ((template_parts (levelname r)).1 +:+ "[" +:+ levelname r
             +:+ "] " +:+ with_stack_text formatStack r m'
             +:+ (template_parts (levelname r)).2)).
Proof.
  intros Hr Hb Hexc.
  destruct (base_message_inv (with_style_fmt _ w) _ _ _ _ Hr Hb)
    as (a & Hcol & Hr1 & Hm & Hstyle).
  exists a. split; [done |].
  rewrite (format_finish _ _ w w1 record r (with_args a r) m Hr Hcol Hr1 Hm).
  unfold finish.
  assert (Hexc' : with_exception_text
                    (rendered formatException (with_args a r)) m = Ok m')
    by (rewrite <- Hexc; by destruct r).
  rewrite Hexc'.
  assert (Hst : with_stack_text formatStack
                  (rendered formatException (with_args a r)) m'
                = with_stack_text formatStack r m') by (by destruct r).
  rewrite Hst. f_equal.
  rewrite Hstyle. cbn [style_fmt with_style_fmt].
  pose proof (final_line_template
                (with_message (Some (with_stack_text formatStack r m'))
                   (rendered formatException (with_args a r)))
                _ eq_refl) as Hline.
  cbn [levelname with_message with_exc_text with_args rendered] in Hline.
  exact Hline.
Qed.

End cases.

(** X7. The exception is rendered at most once: for a record that has no
    exception information, or that already holds a rendered exception
    text, [format] never asks for a rendering. Whatever method would
    render the exception, the outcome and the state are the same, and the
    text the record holds is the one it held. *)
Theorem cached_exception_text_wins (formatException : ExcInfo → string)
    (formatException' : ExcInfo → string) (formatStack : string → string)
    (w : World) (record : loc) (r : LogRecord) :
  records w !! record = Some r →
  exc_info r = None ∨ truthy (exc_text r) = true →
  runM (CustomFormatter.format formatException formatStack record) w
  = runM (CustomFormatter.format formatException' formatStack record) w
  ∧ exc_text <$> records (fst (runM (CustomFormatter.format formatException
                                       formatStack record) w)) !! record
    = Some (exc_text r).
Proof.
  intros Hr Hcached.
  assert (Hsame : ∀ fe a, rendered fe (with_args a r) = with_args a r).
  { intros fe a. unfold rendered, exception_text.
    cbn [exc_info exc_text with_args].
    destruct Hcached as [-> | ->]; [by destruct r |].
    destruct (exc_info r); by destruct r. }
  assert (Hr0 : records
                  (with_style_fmt
                     (default CustomFormatter.default_fmt
                        (CustomFormatter.LOG_LEVEL_FORMAT !! levelname r)) w)
                !! record = Some r) by done.
  rewrite (format_run_cases formatException formatStack _ _ _ Hr).
  rewrite (format_run_cases formatException' formatStack _ _ _ Hr).
  destruct (colour_args_record _ record r Hr0) as [a Hr1].
  destruct (runM (CustomFormatter.colour_args record) _) as [w1 oc].
  cbn [fst] in Hr1. rewrite Hr1.
  destruct oc as [[] | e |]; cbn [fst];
    [| by rewrite Hr1 | by rewrite Hr1].
  destruct (message_of w1 (with_args a r)) as [m | e |]; cbn [fst];
    [| by rewrite Hr1 | by rewrite Hr1].
  unfold finish. rewrite !Hsame.
  split; [done |].
  destruct (with_exception_text (with_args a r) m); cbn [fst];
    by erewrite store_lookup.
Qed.

Lemma cached_exception_text_wins_witness :
  let ei := {| exc_type := "KeyError"; exc_value := "KeyError: 'a'";
               exc_traceback := [] |} in
  let r := {| name := "bot"; levelname := "ERROR"; msg := "boom";
              args := ANone; exc_info := Some ei; exc_text := Some "cached";
              stack_info := None; message := None |} in
  snd (runM (CustomFormatter.format exc_value id 0)
         (with_records [r] initial_world))
  = snd (runM (CustomFormatter.format exc_type id 0)
           (with_records [r] initial_world)).
Proof.
  cbv zeta.
  destruct (cached_exception_text_wins exc_value exc_type id
              (with_records
                 [ {| name := "bot"; levelname := "ERROR"; msg := "boom";
                      args := ANone;
                      exc_info := Some {| exc_type := "KeyError";
                                          exc_value := "KeyError: 'a'";
                                          exc_traceback := [] |};
                      exc_text := Some "cached";
                      stack_info := None; message := None |} ]
                 initial_world)
              0 _ eq_refl) as [H _].
  - right. reflexivity.
  - by rewrite H.
Defined.

(** ** Formatting again a record whose arguments are not coloured *)

Lemma rendered_idemp (formatException : ExcInfo → string) (r : LogRecord) :
  rendered formatException (rendered formatException r)
  = rendered formatException r.
Proof.
  unfold rendered, exception_text.
  cbn [exc_info exc_text with_exc_text].
  destruct (exc_info r) as [ei |]; [| done].
  destruct (truthy (exc_text r)) eqn:Ht.
  - by rewrite Ht.
  - by destruct (truthy (Some (formatException ei))).
Qed.

Lemma with_style_fmt_same (w : World) (f : string) :
  style_fmt w = f → with_style_fmt f w = w.
Proof. intros <-. by destruct w. Qed.

(** X8. A record whose arguments are absent, a tuple or an empty mapping
    can be formatted again: [format] creates no dictionary and leaves the
    arguments of the record as they are, and when it has returned, a
    second run on the same record returns the same line and leaves the
    state as the first run left it. The message is composed anew from the
    template of the record each time, the cached exception text is used
    as it is. *)
Theorem format_again_without_mapping (formatException : ExcInfo → string)
    (formatStack : string → string) (w w' : World) (record : loc)
    (r : LogRecord) (out : string) :
  records w !! record = Some r →
  match args r with
  | AMap l => dicts w !! l = Some ∅
  | _ => True
  end →
  runM (CustomFormatter.format formatException formatStack record) w
  = (w', Ok out) →
  runM (CustomFormatter.format formatException formatStack record) w'
  = (w', Ok out)
  ∧ dicts w' = dicts w
  ∧ args <$> records w' !! record = Some (args r).
Proof.
  intros Hr Ha Hrun.
  set (template := default CustomFormatter.default_fmt
                     (CustomFormatter.LOG_LEVEL_FORMAT !! levelname r)).
  set (w0 := with_style_fmt template w).
  assert (Hr0 : records w0 !! record = Some r) by done.
  assert (Hskip : runM (CustomFormatter.colour_args record) w0 = (w0, Ok tt))
    by (by apply (colour_args_skip w0 record r Hr0)).
  rewrite (format_run_cases _ _ _ _ _ Hr) in Hrun.
  fold template in Hrun. fold w0 in Hrun. rewrite Hskip, Hr0 in Hrun.
  destruct (message_of w0 r) as [m | e |] eqn:Hm; try discriminate.
  unfold finish in Hrun.
  destruct (with_exception_text (rendered formatException r) m)
    as [m' | e |] eqn:Hexc; try discriminate.
  set (r3 := with_message
               (Some (with_stack_text formatStack
                        (rendered formatException r) m'))
               (rendered formatException r)) in *.
  inversion Hrun as [[Hw' Hout]]. clear Hrun.
  assert (Hr3 : records (store record r3 w0) !! record = Some r3)
    by (by eapply store_lookup).
  split; [| split; [done | by rewrite Hr3]].
  rewrite (format_run_cases _ _ _ _ _ Hr3).
  change (levelname r3) with (levelname r). fold template.
  rewrite (with_style_fmt_same (store record r3 w0) template) by done.
  rewrite (colour_args_skip (store record r3 w0) record r3 Hr3) by done.
  rewrite Hr3.
  change (message_of (store record r3 w0) r3) with (message_of w0 r).
  rewrite Hm. unfold finish.
  assert (Hrend : rendered formatException r3 = r3).
  { unfold r3 at 1.
    change (rendered formatException (with_message ?x ?y))
      with (with_message x (rendered formatException y)).
    by rewrite rendered_idemp. }
  rewrite Hrend.
  change (with_exception_text r3 m)
    with (with_exception_text (rendered formatException r) m).
  rewrite Hexc. cbv zeta.
  change (with_message
            (Some (with_stack_text formatStack r3 m')) r3) with r3.
  by rewrite (store_same record r3 (store record r3 w0) Hr3).
Qed.

Lemma format_again_without_mapping_witness :
  let r := {| name := "bot"; levelname := "WARNING"; msg := "slow: %s";
              args := ATuple [VStr "ratelimit"]; exc_info := None;
              exc_text := None; stack_info := None; message := None |} in
  let w' := fst (runM (CustomFormatter.format exc_value id 0)
                   (with_records [r] initial_world)) in
  snd (runM (CustomFormatter.format exc_value id 0) w')
  = Ok (AnsiColor.WARNING +:+ "[WARNING] slow: ratelimit"
        +:+ AnsiColor.RESET_ALL).
Proof.
  cbv zeta.
  set (r := {| name := "bot"; levelname := "WARNING"; msg := "slow: %s";
               args := ATuple [VStr "ratelimit"]; exc_info := None;
               exc_text := None; stack_info := None; message := None |}).
  destruct (format_again_without_mapping exc_value id
              (with_records [r] initial_world)
              (fst (runM (CustomFormatter.format exc_value id 0)
                      (with_records [r] initial_world)))
              0 r
              (AnsiColor.WARNING +:+ "[WARNING] slow: ratelimit"
               +:+ AnsiColor.RESET_ALL)) as [H _].
  - reflexivity.
  - exact I.
  - vm_compute. reflexivity.
  - by rewrite H.
Defined.

(** ** The stack text and the lines of the message *)

Lemma exception_block_skipped (formatException : ExcInfo → string)
    (r : LogRecord) (m : string) :
  truthy (exception_text formatException r) = false →
  with_exception_text (rendered formatException r) m = Ok m.
Proof.
  unfold with_exception_text, rendered. cbn [exc_text with_exc_text].
  intros Hf. destruct (exception_text formatException r); [| done].
  by rewrite Hf.
Qed.

(** X9. For a record with stack text and without exception text, the
    message is the base message, ended by a newline if it had none, then
    the stack text as [formatStack] gives it: no colour code is put into
    the stack text. The line is the template of the level filled with
    that message. *)
Theorem stack_text_appended (formatException : ExcInfo → string)
    (formatStack : string → string) (w w1 : World) (record : loc)
    (r : LogRecord) (m stack : string) :
  records w !! record = Some r →
  runM (base_message record)
    (with_style_fmt (default CustomFormatter.default_fmt
                       (CustomFormatter.LOG_LEVEL_FORMAT !! levelname r)) w)
  = (w1, Ok m) →
  truthy (exception_text formatException r) = false →
  stack_info r = Some stack →
  stack ≠ "" →
  let result :=
    runM (CustomFormatter.format formatException formatStack record) w in
  let message' := CustomFormatter.end_line m +:+ formatStack stack in
  message <$> records (fst result) !! record = Some (Some message')
  ∧ snd result
    = Ok ((template_parts (levelname r)).1 +:+ "[" +:+ levelname r +:+ "] "
          +:+ message' +:+ (template_parts (levelname r)).2).
Proof.
  intros Hr Hb Hexc Hstack Hne result message'.
  destruct (format_returns formatException formatStack w w1 record r m m
              Hr Hb (exception_block_skipped _ _ _ Hexc))
    as (a & Hr1 & Hrun).
  assert (Hst : with_stack_text formatStack r m = message').
  { unfold with_stack_text. rewrite Hstack.
    destruct stack; [done | reflexivity]. }
  unfold result. rewrite Hrun, Hst. cbn [fst snd].
  split; [| done]. by erewrite store_lookup.
Qed.

Lemma stack_text_appended_witness :
  let r := {| name := "bot"; levelname := "INFO"; msg := "here";
              args := ANone; exc_info := None; exc_text := None;
              stack_info := Some ("Stack (most recent call last):" +:+ NL
                                  +:+ "  File main.py");
              message := None |} in
  snd (runM (CustomFormatter.format exc_value id 0)
         (with_records [r] initial_world))
  = Ok (AnsiColor.INFO +:+ "[INFO] here" +:+ NL
        +:+ "Stack (most recent call last):" +:+ NL +:+ "  File main.py"
        +:+ AnsiColor.RESET_ALL).
Proof.
  cbv zeta.
  set (r := {| name := "bot"; levelname := "INFO"; msg := "here";
               args := ANone; exc_info := None; exc_text := None;
               stack_info := Some ("Stack (most recent call last):" +:+ NL
                                   +:+ "  File main.py");
               message := None |}).
  destruct (stack_text_appended exc_value id
              (with_records [r] initial_world)
              (with_style_fmt
                 (AnsiColor.INFO +:+ CustomFormatter.default_fmt
                  +:+ AnsiColor.RESET_ALL)
                 (with_records [r] initial_world))
              0 r "here"
              ("Stack (most recent call last):" +:+ NL +:+ "  File main.py"))
    as [_ H].
  - reflexivity.
  - vm_compute. reflexivity.
  - reflexivity.
  - reflexivity.
  - discriminate.
  - rewrite H. vm_compute. reflexivity.
Defined.

Lemma split_lines_cons (s : string) : ∃ l ls, split_lines s = l :: ls.
Proof.
  induction s as [| x s (l & ls & IH)]; [by eexists _, _ |].
  cbn [split_lines]. case_decide; [by eexists _, _ |].
  rewrite IH. by eexists _, _.
Qed.

Lemma split_lines_one_line_app (c t l : string) (ls : list string) :
  one_line c = true →
  split_lines t = l :: ls →
  split_lines (c +:+ t) = (c +:+ l) :: ls.
Proof.
  intros Hc Ht. induction c as [| x c IH]; [done |].
  cbn [one_line] in Hc. apply andb_prop in Hc as [Hx Hc].
  apply negb_true_iff, bool_decide_eq_false in Hx.
  rewrite string_app_cons. cbn [split_lines].
  destruct (decide (x = newline)); [done |].
  by rewrite (IH Hc).
Qed.

(** The lines of a text whose newlines have been followed by [c]: the
    lines of the text, each but the first with [c] in front. *)
Lemma split_lines_replace (c s l : string) (ls : list string) :
  one_line c = true →
  split_lines s = l :: ls →
  split_lines (replace_newline (NL +:+ c) s)
  = l :: map (String.append c) ls.
Proof.
  intros Hc. revert l ls. induction s as [| x s IH]; intros l ls Hs.
  - cbn in Hs. inversion Hs; subst. reflexivity.
  - cbn [replace_newline]. cbn [split_lines] in Hs.
    destruct (split_lines_cons s) as (l' & ls' & Hs').
    rewrite Hs' in Hs. specialize (IH l' ls' Hs').
    destruct (decide (x = newline)) as [-> | Hx].
    + inversion Hs; subst l ls.
      change ((NL +:+ c) +:+ replace_newline (NL +:+ c) s)
        with (String newline (c +:+ replace_newline (NL +:+ c) s)).
      cbn [split_lines]. destruct (decide (newline = newline)); [| done].
      by rewrite (split_lines_one_line_app _ _ _ _ Hc IH).
    + inversion Hs; subst l ls.
      cbn [split_lines]. destruct (decide (x = newline)); [done |].
      by rewrite IH.
Qed.

Lemma getattr_one_line (levelname c : string) :
  AnsiColor.getattr levelname = Ok c → one_line c = true.
Proof.
  unfold AnsiColor.getattr.
  destruct (AnsiColor.attrs !! levelname) as [c' |] eqn:H;
    [| by destruct (AnsiColor.other_attribute levelname)].
  intros [= <-]. unfold AnsiColor.attrs in H.
  apply elem_of_list_to_map_2 in H.
  repeat (apply elem_of_cons in H as [H | H]; [by inversion H |]).
  by apply elem_of_nil in H.
Qed.

(** X10. When a record with exception text is formatted (no stack text),
    every line of its message but the first begins with the colour code
    of the level: split at its newlines, the message is the lines of the
    base message followed by those of the exception text, each line after
    the first with the colour code in front, and there are at least two
    lines. *)
Theorem exception_lines_carry_colour (formatException : ExcInfo → string)
    (formatStack : string → string) (w w1 : World) (record : loc)
    (r : LogRecord) (m text c : string) :
  records w !! record = Some r →
  runM (base_message record)
    (with_style_fmt (default CustomFormatter.default_fmt
                       (CustomFormatter.LOG_LEVEL_FORMAT !! levelname r)) w)
  = (w1, Ok m) →
  exception_text formatException r = Some text →
  text ≠ "" →
  AnsiColor.getattr (levelname r) = Ok c →
  truthy (stack_info r) = false →
  ∃ (first second : string) (rest : list string) (message' : string),
    split_lines (CustomFormatter.end_line m +:+ text)
    = first :: second :: rest
    ∧ message <$> records (fst (runM (CustomFormatter.format formatException
                                        formatStack record) w)) !! record
      = Some (Some message')
    ∧ split_lines message'
      = first :: (c +:+ second) :: map (String.append c) rest.
Proof.
  intros Hr Hb Htext Hne Hc Hst.
  set (whole := CustomFormatter.end_line m +:+ text).
  assert (Hexc : with_exception_text (rendered formatException r) m
                 = Ok (replace_newline (NL +:+ c) whole)).
  { unfold with_exception_text, rendered.
    cbn [exc_text with_exc_text levelname]. rewrite Htext.
    destruct text; [done |]. cbn [truthy]. by rewrite Hc. }
  destruct (format_returns formatException formatStack w w1 record r m _
              Hr Hb Hexc) as (a & Hr1 & Hrun).
  assert (Hstack : ∀ x, with_stack_text formatStack r x = x).
  { intros x. unfold with_stack_text.
    destruct (stack_info r) as [[| y s] |]; done. }
  rewrite Hrun, Hstack. cbn [fst].
  assert (Htwo : ∃ first second rest,
             split_lines whole = first :: second :: rest).
  { unfold whole. destruct (end_line_ends m) as [body ->].
    rewrite string_app_assoc.
    destruct (split_lines_cons text) as (l & ls & Hl).
    clear -Hl. induction body as [| x body (f & s & rs & IH)].
    - change ("" +:+ NL +:+ text) with (String newline text).
      cbn [split_lines]. destruct (decide (newline = newline)); [| done].
      rewrite Hl. by eexists _, _, _.
    - rewrite string_app_cons. cbn [split_lines]. rewrite IH.
      case_decide; by eexists _, _, _. }
  destruct Htwo as (first & second & rest & Hsplit).
  exists first, second, rest, (replace_newline (NL +:+ c) whole).
  split; [done |]. split; [by erewrite store_lookup |].
  by rewrite (split_lines_replace c whole first (second :: rest)
                (getattr_one_line _ _ Hc) Hsplit).
Qed.

Lemma exception_lines_carry_colour_witness :
  let ei := {| exc_type := "ValueError";
               exc_value := "Traceback" +:+ NL +:+ "ValueError: bad";
               exc_traceback := [] |} in
  let r := {| name := "bot"; levelname := "ERROR"; msg := "boom";
              args := ANone; exc_info := Some ei; exc_text := None;
              stack_info := None; message := None |} in
  ∃ message',
    message <$> records (fst (runM (CustomFormatter.format exc_value id 0)
                                (with_records [r] initial_world))) !! 0
    = Some (Some message')
    ∧ split_lines message'
      = [ "boom"; AnsiColor.ERROR +:+ "Traceback";
          AnsiColor.ERROR +:+ "ValueError: bad" ].
Proof.
  cbv zeta.
  set (ei := {| exc_type := "ValueError";
                exc_value := "Traceback" +:+ NL +:+ "ValueError: bad";
                exc_traceback := [] |}).
  set (r := {| name := "bot"; levelname := "ERROR"; msg := "boom";
               args := ANone; exc_info := Some ei; exc_text := None;
               stack_info := None; message := None |}).
  destruct (exception_lines_carry_colour exc_value id
              (with_records [r] initial_world)
              (with_style_fmt
                 (AnsiColor.ERROR +:+ CustomFormatter.default_fmt
                  +:+ AnsiColor.RESET_ALL)
                 (with_records [r] initial_world))
              0 r "boom" ("Traceback" +:+ NL +:+ "ValueError: bad")
              AnsiColor.ERROR)
    as (first & second & rest & message' & Hsplit & Hmsg & Hlines).
  - reflexivity.
  - vm_compute. reflexivity.
  - reflexivity.
  - discriminate.
  - vm_compute. reflexivity.
  - reflexivity.
  - exists message'. split; [exact Hmsg |].
    rewrite Hlines. vm_compute in Hsplit. inversion Hsplit; subst.
    vm_compute. reflexivity.
Defined.

(** ** The colour of the status field *)

Lemma log_result (self : CustomAccessLogger.t) (request : BaseRequest)
    (response : StreamResponse) (time : float) (w : World)
    (c : FieldStyle) (ms : Z) :
  registry w !! "status" = Some c →
  py_round (time * 1000)%float = Ok ms →
  let level := if bool_decide (status response ∈ STATUS_OK)
               then "DEBUG" else "ERROR" in
  let w' := fst (runM (CustomAccessLogger.log self request response time) w) in
  registry w' = registry (classified (status response) c w)
  ∧ dicts w' = dicts w ++ [log_args self request response ms]
  ∧ records w'
    = records w ++ [ {| name := CustomAccessLogger.logger_name self;
                        levelname := level;
                        msg := CustomAccessLogger.log_format self;
                        args := AMap (length (dicts w));
                        exc_info := None; exc_text := None;
                        stack_info := None; message := None |} ].
Proof.
  intros Hc Hms. cbv zeta.
  by rewrite (log_run self request response time w c ms Hc Hms),
    logger_call_run.
Qed.

(** The value a run of [format] that returns leaves under "status". *)
Lemma format_status_value (formatException : ExcInfo → string)
    (formatStack : string → string) (w w' : World) (record : loc)
    (r : LogRecord) (l : loc) (items : Dict) (out : string) (v : Value)
    (c : FieldStyle) :
  records w !! record = Some r →
  args r = AMap l →
  dicts w !! l = Some items →
  items !! "status" = Some v →
  registry w !! "status" = Some c →
  runM (CustomFormatter.format formatException formatStack record) w
  = (w', Ok out) →
  ∃ r' items' text,
    records w' !! record = Some r'
    ∧ levelname r' = levelname r
    ∧ args r' = AMap (length (dicts w))
    ∧ dicts w' !! length (dicts w) = Some items'
    ∧ items' !! "status" = Some (VStr text)
    ∧ AnsiColor.inject (str v) (color c) (default "normal" (style c))
        (levelname r) = Ok text.
Proof.
  intros Hr Ha Hl Hv Hc Hrun.
  assert (Hne : items ≠ ∅).
  { intros ->. by rewrite lookup_empty in Hv. }
  destruct (format_mutation_step formatException formatStack w w' record r
              l items out Hr Ha Hl Hne Hrun)
    as (formatted & m & Hf & Hd & Hreg & Hr').
  destruct (format_items_lookup _ _ _ _ _ _ Hf Hv) as (v' & Hv' & Hlook).
  unfold format_value in Hv'. rewrite Hc in Hv'.
  destruct (AnsiColor.inject (str v) (color c) (default "normal" (style c))
              (levelname r)) as [text | |]; try discriminate.
  inversion Hv'; subst v'.
  eexists _, formatted, text. split; [exact Hr' |].
  split; [done |]. split; [done |].
  split; [rewrite Hd; by rewrite lookup_app_r, Nat.sub_diag by lia |].
  by split.
Qed.

(** X11. The status field is rendered in the colour of the status
    classified last when the record is formatted, not in the colour of the
    status the record reports. When the record of an exchange is formatted
    right after it was logged, its status field gets the colour of its own
    status; when another exchange is logged in between, it gets the colour
    of the status of that other exchange. *)
Theorem status_rendered_in_last_colour (formatException : ExcInfo → string)
    (formatStack : string → string) (self : CustomAccessLogger.t)
    (request request' : BaseRequest) (response response' : StreamResponse)
    (time time' : float) (w : World) :
  is_Some (registry w !! "status") →
  is_finite (time * 1000)%float = true →
  is_finite (time' * 1000)%float = true →
  let w1 := fst (runM (CustomAccessLogger.log self request response time) w) in
  let w2 :=
    fst (runM (CustomAccessLogger.log self request' response' time') w1) in
  let record := length (records w) in
  let rendered_in (last : Z) (w0 w' : World) :=
    ∃ r' items' text c,
      registry w !! "status" = Some c
      ∧ records w' !! record = Some r'
      ∧ args r' = AMap (length (dicts w0))
      ∧ dicts w' !! length (dicts w0) = Some items'
      ∧ items' !! "status" = Some (VStr text)
      ∧ AnsiColor.inject
          (str_int (status response) +:+ ":" +:+ reason response)
          (slot_after (Some last)) (default "normal" (style c))
          (levelname r') = Ok text in
  (∀ w' out,
     runM (CustomFormatter.format formatException formatStack record) w1
     = (w', Ok out) →
     rendered_in (status response) w1 w')
  ∧ (∀ w' out,
       runM (CustomFormatter.format formatException formatStack record) w2
       = (w', Ok out) →
       rendered_in (status response') w2 w').
Proof.
  intros [c Hc] Hfin Hfin' w1 w2 record rendered_in.
  destruct (py_round_finite _ Hfin) as [ms Hms].
  destruct (py_round_finite _ Hfin') as [ms' Hms'].
  destruct (log_result self request response time w c ms Hc Hms)
    as (Hreg1 & Hd1 & Hr1).
  fold w1 in Hreg1, Hd1, Hr1.
  assert (Hc1 : registry w1 !! "status"
                = Some {| color := slot_after (Some (status response));
                          style := style c |}).
  { rewrite Hreg1, classified_lookup. by rewrite slot_after_classified. }
  destruct (log_result self request' response' time' w1 _ ms' Hc1 Hms')
    as (Hreg2 & Hd2 & Hr2).
  fold w2 in Hreg2, Hd2, Hr2.
  assert (Hc2 : registry w2 !! "status"
                = Some {| color := slot_after (Some (status response'));
                          style := style c |}).
  { rewrite Hreg2, classified_lookup. by rewrite slot_after_classified. }
  destruct (log_args_lookup self request response ms)
    as (_ & _ & _ & _ & Hstatus & _).
  assert (Hrec1 : records w1 !! record
                  = Some {| name := CustomAccessLogger.logger_name self;
                            levelname := if bool_decide
                                              (status response ∈ STATUS_OK)
                                         then "DEBUG" else "ERROR";
                            msg := CustomAccessLogger.log_format self;
                            args := AMap (length (dicts w));
                            exc_info := None; exc_text := None;
                            stack_info := None; message := None |}).
  { rewrite Hr1. unfold record. by rewrite lookup_app_r, Nat.sub_diag by lia. }
  assert (Hdict1 : dicts w1 !! length (dicts w)
                   = Some (log_args self request response ms)).
  { rewrite Hd1. by rewrite lookup_app_r, Nat.sub_diag by lia. }
  split.
  - intros w' out Hrun.
    destruct (format_status_value formatException formatStack w1 w' record
                _ _ _ out _ _ Hrec1 eq_refl Hdict1 Hstatus Hc1 Hrun)
      as (r' & items' & text & Hr' & Hlev & Ha' & Hd' & Hv' & Hinj).
    exists r', items', text, c. rewrite Hlev. by repeat split.
  - intros w' out Hrun.
    assert (Hrec2 : records w2 !! record = records w1 !! record).
    { rewrite Hr2. apply lookup_app_l. by apply lookup_lt_Some in Hrec1. }
    assert (Hdict2 : dicts w2 !! length (dicts w)
                     = Some (log_args self request response ms)).
    { rewrite Hd2. apply lookup_app_l_Some. exact Hdict1. }
    rewrite Hrec1 in Hrec2.
    destruct (format_status_value formatException formatStack w2 w' record
                _ _ _ out _ _ Hrec2 eq_refl Hdict2 Hstatus Hc2 Hrun)
      as (r' & items' & text & Hr' & Hlev & Ha' & Hd' & Hv' & Hinj).
    exists r', items', text, c. rewrite Hlev. by repeat split.
Qed.

Lemma status_rendered_in_last_colour_witness :
  let bot := {| CustomAccessLogger.logger_name := "bot";
                CustomAccessLogger.log_format := CustomAccessLogger.LOG_FORMAT |} in
  let request := {| method := "GET"; path_qs := "/webhook"; scheme := "http";
                    version := {| major := 1; minor := 1 |} |} in
  let w1 := fst (runM (CustomAccessLogger.log bot request
                         {| status := 200; reason := "OK" |} 0.0123%float)
                   initial_world) in
  let w2 := fst (runM (CustomAccessLogger.log bot request
                         {| status := 500; reason := "Internal Server Error" |}
                         1.2%float) w1) in
  let w' := fst (runM (CustomFormatter.format exc_value id 0) w2) in
  ∃ items',
    dicts w' !! 2 = Some items'
    ∧ items' !! "status"
      = Some (VStr (AnsiColor.RESET_ALL +:+ AnsiColor.RED +:+ AnsiColor.BOLD
                    +:+ "200:OK" +:+ AnsiColor.RESET_ALL +:+ AnsiColor.DEBUG)).
Proof.
  cbv zeta.
  set (bot := {| CustomAccessLogger.logger_name := "bot";
                 CustomAccessLogger.log_format := CustomAccessLogger.LOG_FORMAT |}).
  set (request := {| method := "GET"; path_qs := "/webhook"; scheme := "http";
                     version := {| major := 1; minor := 1 |} |}).
  destruct (status_rendered_in_last_colour exc_value id bot request request
              {| status := 200; reason := "OK" |}
              {| status := 500; reason := "Internal Server Error" |}
              0.0123%float 1.2%float initial_world) as [_ H].
  - eexists. vm_compute. reflexivity.
  - vm_compute. reflexivity.
  - vm_compute. reflexivity.
  - set (w2 := fst (runM (CustomAccessLogger.log bot request
                            {| status := 500;
                               reason := "Internal Server Error" |}
                            1.2%float) _)) in *.
    destruct (runM (CustomFormatter.format exc_value id 0) w2)
      as [w' [out | e |]] eqn:Hrun;
      [| vm_compute in Hrun; discriminate | vm_compute in Hrun; discriminate].
    destruct (H w' out Hrun)
      as (r' & items' & text & c & Hc & Hr' & Ha' & Hd' & Hv' & Hinj).
    cbn [fst]. exists items'. split.
    + rewrite <- Hd'. f_equal.
    + rewrite Hv'. f_equal. f_equal.
      vm_compute in Hc. inversion Hc; subst c.
      assert (Hlev : levelname r' = "DEBUG").
      { apply (f_equal fst) in Hrun. cbn [fst] in Hrun. subst w'.
        vm_compute in Hr'. by inversion Hr'. }
      rewrite Hlev in Hinj. vm_compute in Hinj. inversion Hinj.
      vm_compute. reflexivity.
Defined.

(** ** The rounded time *)

Lemma round_half_even_nearest (m e : Z) :
  (e < 0)%Z →
  let d := (2 ^ (- e))%Z in
  let z := round_half_even m e in
  (Z.abs (2 * (z * d - m)) ≤ d)%Z
  ∧ (Z.abs (2 * (z * d - m)) = d → Z.even z = true).
Proof.
  intros He d z. unfold z, round_half_even.
  destruct (0 <=? e)%Z eqn:H0; [apply Z.leb_le in H0; lia |].
  fold d.
  assert (Hd : (0 < d)%Z) by (unfold d; apply Z.pow_pos_nonneg; lia).
  pose proof (Z.div_mod m d ltac:(lia)) as Hdiv.
  pose proof (Z.mod_pos_bound m d Hd) as Hmod.
  set (q := (m / d)%Z) in *. set (r := (m mod d)%Z) in *.
  destruct (2 * r <? d)%Z eqn:H1.
  - apply Z.ltb_lt in H1. split; [nia |]. intros Heq. exfalso. nia.
  - apply Z.ltb_ge in H1. destruct (d <? 2 * r)%Z eqn:H2.
    + apply Z.ltb_lt in H2. split; [nia |]. intros Heq. exfalso. nia.
    + apply Z.ltb_ge in H2. destruct (Z.even q) eqn:Hq.
      * split; [nia | done].
      * split; [nia |]. intros _.
        rewrite Z.even_add, Hq. reflexivity.
Qed.

(** X12. The milliseconds that [log] writes are the integer nearest to
    the floating-point product of the time by 1000, the even one of the
    two when the product is half-way between two integers: for a product
    of sign [s], mantissa [m] and exponent [e], [round] returns the value
    itself when [e] is not negative, and otherwise an integer whose
    distance to [m * 2^e] is at most one half, and is even when the
    distance is one half. The sign of the product is kept. *)
Theorem rounded_time_nearest (x : float) (s : bool) (m : positive) (e : Z) :
  Prim2SF x = S754_finite s m e →
  ∃ z,
    py_round x = Ok z
    ∧ (if s then z ≤ 0 else 0 ≤ z)%Z
    ∧ (0 ≤ e → Z.abs z = Z.pos m * 2 ^ e)%Z
    ∧ (e < 0 →
       Z.abs (2 * (Z.abs z * 2 ^ (- e) - Z.pos m)) ≤ 2 ^ (- e)
       ∧ (Z.abs (2 * (Z.abs z * 2 ^ (- e) - Z.pos m)) = 2 ^ (- e) →
          Z.even z = true))%Z.
Proof.
  intros Hx. unfold py_round. rewrite Hx.
  set (z0 := round_half_even (Z.pos m) e).
  assert (Hnonneg : (0 ≤ z0)%Z).
  { unfold z0, round_half_even.
    destruct (0 <=? e)%Z eqn:H0.
    - apply Z.leb_le in H0.
      pose proof (Z.pow_nonneg 2 e ltac:(lia)). nia.
    - assert (Hd : (0 < 2 ^ (- e))%Z)
        by (apply Z.leb_gt in H0; apply Z.pow_pos_nonneg; lia).
      pose proof (Z.div_pos (Z.pos m) (2 ^ (- e)) ltac:(lia) Hd).
      repeat case_match; lia. }
  exists (if s then (- z0)%Z else z0).
  split; [done |].
  assert (Habs : Z.abs (if s then (- z0)%Z else z0) = z0)
    by (destruct s; lia).
  assert (Heven : Z.even (if s then (- z0)%Z else z0) = Z.even z0)
    by (destruct s; [apply Z.even_opp | done]).
  rewrite Habs, Heven.
  split; [destruct s; lia |]. split.
  - intros He. unfold z0, round_half_even.
    by rewrite (proj2 (Z.leb_le 0 e) He).
  - intros He. apply (round_half_even_nearest (Z.pos m) e He).
Qed.

Lemma rounded_time_nearest_witness :
  ∃ z, py_round 0.5%float = Ok z ∧ (0 ≤ z)%Z ∧ Z.even z = true.
Proof.
  destruct (rounded_time_nearest 0.5%float false 4503599627370496 (-53))
    as (z & Hz & Hsign & _ & Hneg); [vm_compute; reflexivity |].
  exists z. split; [exact Hz |]. split; [exact Hsign |].
  apply Hneg; [lia |].
  vm_compute in Hz. inversion Hz; subst z. vm_compute. reflexivity.
Defined.

(** ** The argument formatter, called again *)

(** X13. [format_args] reads the registry and its input and writes
    neither: when a call has returned, a second call with the same input
    returns another new mapping with the same contents. An empty mapping
    gives an empty mapping. *)
Theorem format_args_again (w w1 : World) (args : loc) (level : string)
    (items : Dict) (l1 : loc) :
  dicts w !! args = Some items →
  runM (format_args args level) w = (w1, Ok l1) →
  ∃ formatted : Dict,
    dicts w1 !! l1 = Some formatted
    ∧ runM (format_args args level) w1
      = (with_dicts (dicts w1 ++ [formatted]) w1, Ok (S l1))
    ∧ dicts w1 !! args = Some items
    ∧ registry w1 = registry w
    ∧ (items = ∅ → formatted = ∅).
Proof.
  intros Hl Hrun. rewrite (format_args_run w args level items Hl) in Hrun.
  destruct (format_items (registry w) level items) as [formatted | e |] eqn:Hf;
    try discriminate.
  inversion Hrun; subst w1 l1. clear Hrun.
  exists formatted. world_simpl.
  assert (Hl1 : (dicts w ++ [formatted]) !! args = Some items)
    by (by apply lookup_app_l_Some).
  split; [by rewrite lookup_app_r, Nat.sub_diag by lia |].
  split.
  - rewrite (format_args_run _ args level items) by done.
    world_simpl. rewrite Hf. do 2 f_equal.
    rewrite length_app. cbn. lia.
  - split; [done |]. split; [done |].
    intros ->. unfold format_items in Hf. rewrite map_fold_empty in Hf.
    by inversion Hf.
Qed.

Lemma format_args_again_witness :
  let w := with_dicts [ ({[ "url" := VStr "https://x" ]} : Dict) ]
             initial_world in
  let w1 := fst (runM (format_args 0 "INFO") w) in
  snd (runM (format_args 0 "INFO") w1) = Ok 2.
Proof.
  cbv zeta.
  set (w := with_dicts [ ({[ "url" := VStr "https://x" ]} : Dict) ]
              initial_world).
  destruct (format_args_again w (fst (runM (format_args 0 "INFO") w))
              0 "INFO" {[ "url" := VStr "https://x" ]} 1)
    as (formatted & _ & Hrun & _).
  - reflexivity.
  - vm_compute. reflexivity.
  - by rewrite Hrun.
Defined.

(** ** The line of an access log record *)

Lemma percent_LOG_FORMAT (d : Dict) (v1 v2 v3 v4 v5 v6 : Value) :
  d !! "logger" = Some v1 → d !! "method" = Some v2 →
  d !! "path" = Some v3 → d !! "version" = Some v4 →
  d !! "status" = Some v5 → d !! "time" = Some v6 →
  percent (Some d) [] PText CustomAccessLogger.LOG_FORMAT
  = Ok (str v1 +:+ " " +:+ dquote +:+ str v2 +:+ " " +:+ str v3 +:+ " "
        +:+ str v4 +:+ dquote +:+ " => " +:+ str v5 +:+ " " +:+ str v6).
Proof.
  intros H1 H2 H3 H4 H5 H6.
  change CustomAccessLogger.LOG_FORMAT
    with ("%(" +:+ "logger" +:+ ")s" +:+ (" " +:+ dquote)
          +:+ "%(" +:+ "method" +:+ ")s" +:+ " "
          +:+ "%(" +:+ "path" +:+ ")s" +:+ " "
          +:+ "%(" +:+ "version" +:+ ")s" +:+ (dquote +:+ " => ")
          +:+ "%(" +:+ "status" +:+ ")s" +:+ " "
          +:+ "%(" +:+ "time" +:+ ")s" +:+ "").
  rewrite (percent_key _ "logger" _ _ eq_refl H1).
  rewrite (percent_plain _ _ (" " +:+ dquote)) by done.
  rewrite (percent_key _ "method" _ _ eq_refl H2).
  rewrite (percent_plain _ _ " ") by done.
  rewrite (percent_key _ "path" _ _ eq_refl H3).
  rewrite (percent_plain _ _ " ") by done.
  rewrite (percent_key _ "version" _ _ eq_refl H4).
  rewrite (percent_plain _ _ (dquote +:+ " => ")) by done.
  rewrite (percent_key _ "status" _ _ eq_refl H5).
  rewrite (percent_plain _ _ " ") by done.
  rewrite (percent_key _ "time" _ _ eq_refl H6).
  cbn [percent fmap outcome_fmap].
  rewrite !string_app_assoc, string_app_nil_r. reflexivity.
Qed.

Lemma log_args_keys (self : CustomAccessLogger.t) (request : BaseRequest)
    (response : StreamResponse) (ms : Z) (key : string) (value : Value) :
  log_args self request response ms !! key = Some value →
  key = "logger" ∨ key = "method" ∨ key = "path" ∨ key = "version"
  ∨ key = "status" ∨ key = "time".
Proof.
  unfold log_args. intros H. apply elem_of_list_to_map_2 in H.
  repeat (apply elem_of_cons in H as [H | H]; [inversion H; tauto |]).
  by apply elem_of_nil in H.
Qed.

Section line.
Variable formatException : ExcInfo → string.
Variable formatStack : string → string.

(** X14. The line of an access log record, when the record is formatted
    right after [log] has emitted it, in a state whose registry holds the
    entries it was created with (the status colour apart): the colour
    code of the level, the level name between brackets, the logger name
    as it is, then the method in bold magenta, the path in blue, the
    version in yellow, the status in bold green for 200, 201 and 204 and
    in bold red otherwise, the time in yellow, each between a full reset
    and a full reset followed by the colour code of the level, and a full
    reset at the end. *)
Theorem access_log_line (self : CustomAccessLogger.t)
    (request : BaseRequest) (response : StreamResponse) (time : float)
    (w : World) :
  (∀ key, key ≠ "status" → registry w !! key = MSG_ARGS_FORMAT !! key) →
  style <$> registry w !! "status" = Some (Some "bold") →
  is_finite (time * 1000)%float = true →
  CustomAccessLogger.log_format self = CustomAccessLogger.LOG_FORMAT →
  ∃ ms,
    py_round (time * 1000)%float = Ok ms
    ∧ let ok := bool_decide (status response ∈ STATUS_OK) in
      let code := if ok then AnsiColor.DEBUG else AnsiColor.ERROR in
      let field colour style text :=
        AnsiColor.RESET_ALL +:+ colour +:+ style +:+ text
        +:+ AnsiColor.RESET_ALL +:+ code in
      snd (runM (CustomFormatter.format formatException formatStack
                   (length (records w)))
             (fst (runM (CustomAccessLogger.log self request response time)
                     w)))
      = Ok (code +:+ "[" +:+ (if ok then "DEBUG" else "ERROR") +:+ "] "
            +:+ CustomAccessLogger.logger_name self +:+ " " +:+ dquote
            +:+ field AnsiColor.MAGENTA AnsiColor.BOLD (method request)
            +:+ " "
            +:+ field AnsiColor.BLUE AnsiColor.NORMAL (path_qs request)
            +:+ " "
            +:+ field AnsiColor.YELLOW AnsiColor.NORMAL
                  (upper (scheme request) +:+ "/"
                   +:+ str_int (major (version request)) +:+ "."
                   +:+ str_int (minor (version request)))
            +:+ dquote +:+ " => "
            +:+ field (if ok then AnsiColor.GREEN else AnsiColor.RED)
                  AnsiColor.BOLD
                  (str_int (status response) +:+ ":" +:+ reason response)
            +:+ " "
            +:+ field AnsiColor.YELLOW AnsiColor.NORMAL
                  (str_int ms +:+ "ms")
            +:+ AnsiColor.RESET_ALL).
Proof.
  intros Hother Hstyle Hfin Hfmt.
  destruct (registry w !! "status") as [c |] eqn:Hc; [| discriminate].
  assert (Hbold : style c = Some "bold") by (by inversion Hstyle).
  destruct (py_round_finite _ Hfin) as [ms Hms].
  exists ms. split; [done |]. intros ok code field.
  destruct (log_result self request response time w c ms Hc Hms)
    as (Hreg1 & Hd1 & Hr1).
  set (w1 := fst (runM (CustomAccessLogger.log self request response time) w))
    in *.
  clearbody w1.
  set (level := if ok then "DEBUG" else "ERROR").
  set (record := length (records w)).
  set (items := log_args self request response ms) in *.
  set (r := {| name := CustomAccessLogger.logger_name self;
               levelname := level;
               msg := CustomAccessLogger.log_format self;
               args := AMap (length (dicts w));
               exc_info := None; exc_text := None;
               stack_info := None; message := None |}).
  assert (Hrec : records w1 !! record = Some r).
  { rewrite Hr1. unfold record. by rewrite lookup_app_r, Nat.sub_diag by lia. }
  assert (Hdict : dicts w1 !! length (dicts w) = Some items).
  { rewrite Hd1. by rewrite lookup_app_r, Nat.sub_diag by lia. }
  assert (Hreg_other : ∀ key, key ≠ "status" →
            registry w1 !! key = MSG_ARGS_FORMAT !! key).
  { intros key Hne. rewrite Hreg1. unfold classified. world_simpl.
    rewrite lookup_insert_ne by done. by apply Hother. }
  assert (Hreg_status : registry w1 !! "status"
            = Some {| color := if ok then "green" else "red";
                      style := Some "bold" |}).
  { rewrite Hreg1, classified_lookup. by rewrite Hbold. }
  assert (Hcode : AnsiColor.getattr_upper level = Ok code).
  { unfold level, code. by destruct ok. }
  assert (Hv : ∀ key colour weight text col sty,
            registry w1 !! key
            = Some {| color := colour; style := weight |} →
            AnsiColor.getattr_upper colour = Ok col →
            AnsiColor.getattr_upper (default "normal" weight) = Ok sty →
            format_value (registry w1) level key (VStr text)
            = Ok (VStr (field col sty text))).
  { intros key colour weight text col sty Hk Hcol Hsty.
    unfold format_value. rewrite Hk. cbn [color style str].
    unfold AnsiColor.inject. by rewrite Hcol, Hsty, Hcode. }
  destruct (log_args_lookup self request response ms)
    as (I1 & I2 & I3 & I4 & I5 & I6). fold items in I1, I2, I3, I4, I5, I6.
  assert (V1 : format_value (registry w1) level "logger"
                 (VStr (CustomAccessLogger.logger_name self))
               = Ok (VStr (CustomAccessLogger.logger_name self))).
  { unfold format_value. by rewrite Hreg_other. }
  pose proof (Hv "method" "magenta" (Some "bold") (method request) _ _
                (Hreg_other "method" ltac:(done)) eq_refl eq_refl) as V2.
  pose proof (Hv "path" "blue" None (path_qs request) _ _
                (Hreg_other "path" ltac:(done)) eq_refl eq_refl) as V3.
  pose proof (Hv "version" "yellow" None
                (upper (scheme request) +:+ "/"
                 +:+ str_int (major (version request)) +:+ "."
                 +:+ str_int (minor (version request))) _ _
                (Hreg_other "version" ltac:(done)) eq_refl eq_refl) as V4.
  assert (V5 : format_value (registry w1) level "status"
                 (VStr (str_int (status response) +:+ ":"
                        +:+ reason response))
               = Ok (VStr (field (if ok then AnsiColor.GREEN
                                  else AnsiColor.RED) AnsiColor.BOLD
                             (str_int (status response) +:+ ":"
                              +:+ reason response)))).
  { apply (Hv "status" _ _ _ _ _ Hreg_status); by destruct ok. }
  pose proof (Hv "time" "yellow" None (str_int ms +:+ "ms") _ _
                (Hreg_other "time" ltac:(done)) eq_refl eq_refl) as V6.
  destruct (format_items_total (registry w1) level items) as [formatted Hf].
  { intros key value Hk.
    destruct (log_args_keys _ _ _ _ _ _ Hk)
      as [-> | [-> | [-> | [-> | [-> | ->]]]]];
      fold items in Hk.
    - rewrite I1 in Hk. inversion Hk. by eexists.
    - rewrite I2 in Hk. inversion Hk. by eexists.
    - rewrite I3 in Hk. inversion Hk. by eexists.
    - rewrite I4 in Hk. inversion Hk. by eexists.
    - rewrite I5 in Hk. inversion Hk. by eexists.
    - rewrite I6 in Hk. inversion Hk. by eexists. }
  destruct (format_items_lookup _ _ _ _ _ _ Hf I1) as (x1 & E1 & F1).
  destruct (format_items_lookup _ _ _ _ _ _ Hf I2) as (x2 & E2 & F2).
  destruct (format_items_lookup _ _ _ _ _ _ Hf I3) as (x3 & E3 & F3).
  destruct (format_items_lookup _ _ _ _ _ _ Hf I4) as (x4 & E4 & F4).
  destruct (format_items_lookup _ _ _ _ _ _ Hf I5) as (x5 & E5 & F5).
  destruct (format_items_lookup _ _ _ _ _ _ Hf I6) as (x6 & E6 & F6).
  rewrite V1 in E1. rewrite V2 in E2. rewrite V3 in E3.
  rewrite V4 in E4. rewrite V5 in E5. rewrite V6 in E6.
  inversion E1; subst x1. inversion E2; subst x2. inversion E3; subst x3.
  inversion E4; subst x4. inversion E5; subst x5. inversion E6; subst x6.
  clear E1 E2 E3 E4 E5 E6.
  set (template := default CustomFormatter.default_fmt
                     (CustomFormatter.LOG_LEVEL_FORMAT !! levelname r)).
  set (w1' := with_style_fmt template w1).
  assert (Hne : items ≠ ∅) by apply log_args_nonempty.
  assert (Hcol : runM (CustomFormatter.colour_args record) w1'
                 = (with_records
                      (alter (with_args (AMap (length (dicts w1)))) record
                         (records w1))
                      (with_dicts (dicts w1 ++ [formatted]) w1'), Ok tt)).
  { rewrite (colour_args_map w1' record r (length (dicts w)) items
               Hrec eq_refl Hdict Hne).
    change (registry w1') with (registry w1).
    change (dicts w1') with (dicts w1).
    change (records w1') with (records w1).
    change (levelname r) with level.
    rewrite Hf.
    reflexivity. }
  assert (Hne' : formatted ≠ ∅).
  { intros Hem. clear -F1 Hem. rewrite Hem in F1.
    exact (lookup_empty_Some _ _ F1). }
  assert (Hbase : runM (base_message record) w1'
                  = (with_records
                       (alter (with_args (AMap (length (dicts w1)))) record
                          (records w1))
                       (with_dicts (dicts w1 ++ [formatted]) w1'),
                     percent (Some formatted) [] PText
                       CustomAccessLogger.LOG_FORMAT)).
  { unfold base_message. rewrite runM_bind, Hcol.
    erewrite getMessage_run; cycle 1.
    - change (records (with_records ?x _)) with x.
      by rewrite list_lookup_alter_eq, Hrec.
    - reflexivity.
    - change (dicts (with_records _ (with_dicts ?x _))) with x.
      by rewrite lookup_app_r, Nat.sub_diag by lia.
    - exact Hne'.
    - cbn [msg with_args r]. by rewrite Hfmt. }
  rewrite (percent_LOG_FORMAT formatted _ _ _ _ _ _ F1 F2 F3 F4 F5 F6)
    in Hbase.
  cbn [str] in Hbase.
  destruct (format_returns formatException formatStack w1 _ record r _ _
              Hrec Hbase eq_refl) as (a & _ & Hrun).
  rewrite Hrun. cbn [snd]. f_equal.
  assert (Hparts : template_parts (levelname r) = (code, AnsiColor.RESET_ALL)).
  { cbn [levelname r]. unfold level, code. by destruct ok. }
  rewrite Hparts. cbn [fst snd].
  change (with_stack_text formatStack r ?x) with x.
  cbn [levelname r]. rewrite !string_app_assoc. reflexivity.
Qed.
End line.

Lemma access_log_line_witness :
  snd (runM (CustomFormatter.format exc_value id 0)
         (fst (runM (CustomAccessLogger.log
                       {| CustomAccessLogger.logger_name := "bot";
                          CustomAccessLogger.log_format :=
                            CustomAccessLogger.LOG_FORMAT |}
                       {| method := "GET"; path_qs := "/webhook";
                          scheme := "http";
                          version := {| major := 1; minor := 1 |} |}
                       {| status := 200; reason := "OK" |} 0.0123%float)
                initial_world)))
  = Ok (AnsiColor.DEBUG +:+ "[DEBUG] bot " +:+ dquote
        +:+ AnsiColor.RESET_ALL +:+ AnsiColor.MAGENTA +:+ AnsiColor.BOLD
        +:+ "GET" +:+ AnsiColor.RESET_ALL +:+ AnsiColor.DEBUG +:+ " "
        +:+ AnsiColor.RESET_ALL +:+ AnsiColor.BLUE +:+ AnsiColor.NORMAL
        +:+ "/webhook" +:+ AnsiColor.RESET_ALL +:+ AnsiColor.DEBUG +:+ " "
        +:+ AnsiColor.RESET_ALL +:+ AnsiColor.YELLOW +:+ AnsiColor.NORMAL
        +:+ "HTTP/1.1" +:+ AnsiColor.RESET_ALL +:+ AnsiColor.DEBUG
        +:+ dquote +:+ " => "
        +:+ AnsiColor.RESET_ALL +:+ AnsiColor.GREEN +:+ AnsiColor.BOLD
        +:+ "200:OK" +:+ AnsiColor.RESET_ALL +:+ AnsiColor.DEBUG +:+ " "
        +:+ AnsiColor.RESET_ALL +:+ AnsiColor.YELLOW +:+ AnsiColor.NORMAL
        +:+ "12ms" +:+ AnsiColor.RESET_ALL +:+ AnsiColor.DEBUG
        +:+ AnsiColor.RESET_ALL).
Proof.
  destruct (access_log_line exc_value id
              {| CustomAccessLogger.logger_name := "bot";
                 CustomAccessLogger.log_format :=
                   CustomAccessLogger.LOG_FORMAT |}
              {| method := "GET"; path_qs := "/webhook"; scheme := "http";
                 version := {| major := 1; minor := 1 |} |}
              {| status := 200; reason := "OK" |} 0.0123%float
              initial_world)
    as (ms & Hms & H).
  - intros key _. reflexivity.
  - vm_compute. reflexivity.
  - vm_compute. reflexivity.
  - reflexivity.
  - etrans; [exact H |].
    vm_compute in Hms. inversion Hms; subst ms.
    vm_compute. reflexivity.
Defined.
